(** * AutoTypeSelectDialog: the auto-type match selection dialog

    A shallow embedding of [AutoTypeSelectDialog.cpp] / [AutoTypeSelectDialog.h].
    The dialog is a record of its members and of the widgets it owns; every
    slot is a computation in a small state-and-fault monad over that record.
    Signals the dialog emits are appended to a log kept in the state. *)

From Stdlib Require Import ZArith Lia.
From stdpp Require Import base strings list gmap.

Set Warnings "-clear-no-such-hyp".

Open Scope string_scope.
Open Scope list_scope.
Open Scope Z_scope.

(** ** Entries and matches *)

(** [QString::isEmpty]. *)
Definition isEmpty (s : string) : bool :=
  match s with
  | EmptyString => true
  | String _ _ => false
  end.

(** One element of [entry->autoTypeAssociations()->getAll()]. *)
Record Association := mkAssociation {
  window : string;
  sequence : string
}.

(** Modelled from the spec: [core/Entry.h] is not among the sources.  An entry
    is what the dialog reads from it: [username()], [password()], [hasTotp()],
    [totp()], [effectiveAutoTypeSequence()] and the stored associations in
    their order ([autoTypeAssociations()->getAll()]). *)
Record Entry := mkEntry {
  title : string;
  username : string;
  password : string;
  hasTotp : bool;
  totp : string;
  effectiveAutoTypeSequence : string;
  autoTypeAssociations : list Association
}.

(** [AutoTypeMatch] is [QPair<QPointer<Entry>, QString>]; a null pointer is
    [None]. *)
Definition AutoTypeMatch : Type := option Entry * string.

(** The default-constructed [AutoTypeMatch()]: null entry, empty sequence. *)
Definition nullMatch : AutoTypeMatch := (None, "").

(** ** Collecting matches: the Search branch of [performSearch] *)

Section Collect.
(** The entry tree of a database and [EntrySearcher::search] belong to the
    core library; the dialog only calls them. *)
Context {Group : Type}.
Variable search : string -> Group -> list Entry.

Record Database := mkDatabase { rootGroup : Group }.

(** Loop state of [performSearch]: the [matches] list being appended to and
    the [QSet<QString> sequences] of the entry being processed. *)
Definition CollectState : Type := list AutoTypeMatch * gset string.

(** Body of [for (auto assoc : entry->autoTypeAssociations()->getAll())]. *)
Definition assocStep (entry : Entry) (st : CollectState) (assoc : Association)
  : CollectState :=
  let '(matches, sequences) := st in
  if negb (bool_decide (sequence assoc ∈ sequences)) && negb (isEmpty (sequence assoc))
  then (matches ++ [(Some entry, sequence assoc)], sequences ∪ {[sequence assoc]})
  else (matches, sequences).

(** Body of [for (auto entry : found)]. *)
Definition entryStep (matches : list AutoTypeMatch) (entry : Entry)
  : list AutoTypeMatch :=
  let sequences : gset string := ∅ in
  let defSequence := effectiveAutoTypeSequence entry in
  let st :=
    if negb (isEmpty defSequence)
    then (matches ++ [(Some entry, defSequence)], sequences ∪ {[defSequence]})
    else (matches, sequences) in
  fst (foldl (assocStep entry) st (autoTypeAssociations entry)).

(** Body of [for (const auto& db : m_dbs)]. *)
Definition dbStep (text : string) (matches : list AutoTypeMatch) (db : Database)
  : list AutoTypeMatch :=
  let found := search text (rootGroup db) in
  foldl entryStep matches found.

(** The list handed to [setMatchList] at the end of [performSearch]. *)
Definition collectMatches (text : string) (dbs : list Database) : list AutoTypeMatch :=
  foldl (dbStep text) [] dbs.

(** *** The collector as the specification words it *)

(** Associated sequences in stored order, each emitted when it is non-empty
    and not among the strings already emitted for this entry. *)
Fixpoint emitAssociated (emitted : list string) (seqs : list string) : list string :=
  match seqs with
  | [] => []
  | s :: rest =>
      if bool_decide (s ≠ "" ∧ s ∉ emitted)
      then s :: emitAssociated (s :: emitted) rest
      else emitAssociated emitted rest
  end.

(** Templates of one entry: the default sequence if non-empty, then the
    associated ones. *)
Definition templatesOf (e : Entry) : list string :=
  let def := effectiveAutoTypeSequence e in
  let own := if bool_decide (def ≠ "") then [def] else [] in
  own ++ emitAssociated own (sequence <$> autoTypeAssociations e).

Definition matchesOf (e : Entry) : list AutoTypeMatch :=
  (fun t => (Some e, t)) <$> templatesOf e.

(** Stores in caller order, entries in search order. *)
Definition collectSpec (text : string) (dbs : list Database) : list AutoTypeMatch :=
  db ← dbs; e ← search text (rootGroup db); matchesOf e.

End Collect.

Arguments Database : clear implicits.

(** ** The candidate list widget *)

(** A [QModelIndex] of the list: invalid, or a row. *)
Inductive QModelIndex :=
| InvalidIndex
| Index (r : Z).

(** [QModelIndex::row]: -1 for an invalid index. *)
Definition row (i : QModelIndex) : Z :=
  match i with
  | InvalidIndex => -1
  | Index r => r
  end.

Definition isValid (i : QModelIndex) : bool :=
  match i with
  | InvalidIndex => false
  | Index _ => true
  end.

(** Modelled from the spec: [AutoTypeMatchView] ([m_ui->view]) is not among
    the sources.  It holds the list last given to [setMatchList], the rows it
    displays (that list narrowed by the last [filterList]) and the current
    index. *)
Record AutoTypeMatchView := mkView {
  matchList : list AutoTypeMatch;
  displayed : list AutoTypeMatch;
  currentIndex : QModelIndex
}.

(** The index of row [r] of a list of rows: valid exactly for existing rows. *)
Definition indexOf (rows : list AutoTypeMatch) (r : Z) : QModelIndex :=
  if (0 <=? r) && (r <? Z.of_nat (length rows)) then Index r else InvalidIndex.

(** [QModelIndex::sibling(row, column)]: an invalid index has no model and so
    no sibling; otherwise the index of that row, invalid when there is no such
    row.  Column 0 exists in every row. *)
Definition sibling (v : AutoTypeMatchView) (i : QModelIndex) (r c : Z) : QModelIndex :=
  match i with
  | InvalidIndex => InvalidIndex
  | Index _ => indexOf (displayed v) r
  end.

(** Modelled from the spec: [AutoTypeMatchView::currentMatch], the match of
    the current row, or the null match when nothing is selected. *)
Definition currentMatch (v : AutoTypeMatchView) : AutoTypeMatch :=
  match currentIndex v with
  | InvalidIndex => nullMatch
  | Index r => default nullMatch (displayed v !! Z.to_nat r)
  end.

(** Modelled from the spec: [AutoTypeMatchView::setMatchList]; the selection
    is reset to the first row, or to none when there is no row. *)
Definition View_setMatchList (ms : list AutoTypeMatch) (v : AutoTypeMatchView)
  : AutoTypeMatchView :=
  {| matchList := ms; displayed := ms; currentIndex := indexOf ms 0 |}.

Section Filter.
(** The text predicate of the list widget's filter. *)
Variable accepts : string -> AutoTypeMatch -> bool.

(** Modelled from the spec: the rows [filterList] leaves displayed; all of
    them for the empty text. *)
Definition filtered (text : string) (ms : list AutoTypeMatch) : list AutoTypeMatch :=
  if isEmpty text then ms else List.filter (accepts text) ms.

(** Modelled from the spec: [AutoTypeMatchView::filterList]. *)
Definition View_filterList (text : string) (v : AutoTypeMatchView) : AutoTypeMatchView :=
  let rows := filtered text (matchList v) in
  {| matchList := matchList v; displayed := rows; currentIndex := indexOf rows 0 |}.
End Filter.

Definition View_setCurrentIndex (i : QModelIndex) (v : AutoTypeMatchView)
  : AutoTypeMatchView :=
  {| matchList := matchList v; displayed := displayed v; currentIndex := i |}.

(** ** The dialog *)

(** [QDialog::DialogCode]. *)
Inductive DialogCode := Rejected | Accepted.

(** Signals emitted by the dialog: its own [matchActivated] and the three
    signals of [QDialog]. *)
Inductive Signal :=
| matchActivated (m : AutoTypeMatch)
| finished (r : DialogCode)
| accepted
| rejected.

(** What stops a slot: a null [QPointer<Entry>] dereferenced, or [Q_ASSERT]. *)
Inductive Fault := NullPointerDereference | AssertionFailure.

Inductive SearchMode := Filter | Search.

(** The session as the caller sees it. *)
Inductive SessionState :=
| Open
| Closed (outcome : DialogCode).

Inductive Key := Key_Up | Key_Down | Key_Escape | Key_Other.

Inductive QEvent :=
| KeyPress (k : Key)
| OtherEvent.

(** The objects the event filter is installed on. *)
Inductive Watched := obj_action | obj_search | obj_other.

(** The six entries of [m_actionMenu], in the order [buildActionMenu] adds
    them. *)
Inductive MenuAction :=
| typeUsernameAction | typePasswordAction | typeTotpAction
| copyUsernameAction | copyPasswordAction | copyTotpAction.

Definition ordinal (a : MenuAction) : nat :=
  match a with
  | typeUsernameAction => 0 | typePasswordAction => 1 | typeTotpAction => 2
  | copyUsernameAction => 3 | copyPasswordAction => 4 | copyTotpAction => 5
  end%nat.

Section Dialog.
Context {Group : Type}.

(** Members of the class and the state of the widgets of [m_ui] it reads or
    writes, the state of the [QDialog] base, and what left the dialog:
    texts sent to the clipboard and signals emitted, oldest first. *)
Record Dialog := mkDialog {
  m_dbs : list (Database Group);
  m_matches : list AutoTypeMatch;
  m_searchTimer : bool;        (* the single-shot timer is running *)
  m_actionMenu : list bool;    (* isEnabled() of m_actionMenu->actions() *)
  m_accepted : bool;
  ui_view : AutoTypeMatchView;
  ui_search : string;          (* m_ui->search->text() *)
  ui_filterRadio : bool;       (* isChecked() *)
  ui_searchRadio : bool;
  ui_action : bool;            (* m_ui->action->isEnabled() *)
  menuShown : bool;            (* m_actionMenu is popped up *)
  visible : bool;
  result : DialogCode;
  clipboardTexts : list string;
  emitted : list Signal
}.

Definition set_dbs x (d : Dialog) : Dialog :=
  mkDialog x (m_matches d) (m_searchTimer d) (m_actionMenu d) (m_accepted d)
    (ui_view d) (ui_search d) (ui_filterRadio d) (ui_searchRadio d) (ui_action d)
    (menuShown d) (visible d) (result d) (clipboardTexts d) (emitted d).
Definition set_matches x (d : Dialog) : Dialog :=
  mkDialog (m_dbs d) x (m_searchTimer d) (m_actionMenu d) (m_accepted d)
    (ui_view d) (ui_search d) (ui_filterRadio d) (ui_searchRadio d) (ui_action d)
    (menuShown d) (visible d) (result d) (clipboardTexts d) (emitted d).
Definition set_searchTimer x (d : Dialog) : Dialog :=
  mkDialog (m_dbs d) (m_matches d) x (m_actionMenu d) (m_accepted d)
    (ui_view d) (ui_search d) (ui_filterRadio d) (ui_searchRadio d) (ui_action d)
    (menuShown d) (visible d) (result d) (clipboardTexts d) (emitted d).
Definition set_actionMenu x (d : Dialog) : Dialog :=
  mkDialog (m_dbs d) (m_matches d) (m_searchTimer d) x (m_accepted d)
    (ui_view d) (ui_search d) (ui_filterRadio d) (ui_searchRadio d) (ui_action d)
    (menuShown d) (visible d) (result d) (clipboardTexts d) (emitted d).
Definition set_accepted x (d : Dialog) : Dialog :=
  mkDialog (m_dbs d) (m_matches d) (m_searchTimer d) (m_actionMenu d) x
    (ui_view d) (ui_search d) (ui_filterRadio d) (ui_searchRadio d) (ui_action d)
    (menuShown d) (visible d) (result d) (clipboardTexts d) (emitted d).
Definition set_view x (d : Dialog) : Dialog :=
  mkDialog (m_dbs d) (m_matches d) (m_searchTimer d) (m_actionMenu d) (m_accepted d)
    x (ui_search d) (ui_filterRadio d) (ui_searchRadio d) (ui_action d)
    (menuShown d) (visible d) (result d) (clipboardTexts d) (emitted d).
Definition set_search x (d : Dialog) : Dialog :=
  mkDialog (m_dbs d) (m_matches d) (m_searchTimer d) (m_actionMenu d) (m_accepted d)
    (ui_view d) x (ui_filterRadio d) (ui_searchRadio d) (ui_action d)
    (menuShown d) (visible d) (result d) (clipboardTexts d) (emitted d).
Definition set_filterRadio x (d : Dialog) : Dialog :=
  mkDialog (m_dbs d) (m_matches d) (m_searchTimer d) (m_actionMenu d) (m_accepted d)
    (ui_view d) (ui_search d) x (ui_searchRadio d) (ui_action d)
    (menuShown d) (visible d) (result d) (clipboardTexts d) (emitted d).
Definition set_searchRadio x (d : Dialog) : Dialog :=
  mkDialog (m_dbs d) (m_matches d) (m_searchTimer d) (m_actionMenu d) (m_accepted d)
    (ui_view d) (ui_search d) (ui_filterRadio d) x (ui_action d)
    (menuShown d) (visible d) (result d) (clipboardTexts d) (emitted d).
Definition set_action x (d : Dialog) : Dialog :=
  mkDialog (m_dbs d) (m_matches d) (m_searchTimer d) (m_actionMenu d) (m_accepted d)
    (ui_view d) (ui_search d) (ui_filterRadio d) (ui_searchRadio d) x
    (menuShown d) (visible d) (result d) (clipboardTexts d) (emitted d).
Definition set_menuShown x (d : Dialog) : Dialog :=
  mkDialog (m_dbs d) (m_matches d) (m_searchTimer d) (m_actionMenu d) (m_accepted d)
    (ui_view d) (ui_search d) (ui_filterRadio d) (ui_searchRadio d) (ui_action d)
    x (visible d) (result d) (clipboardTexts d) (emitted d).
Definition set_visible x (d : Dialog) : Dialog :=
  mkDialog (m_dbs d) (m_matches d) (m_searchTimer d) (m_actionMenu d) (m_accepted d)
    (ui_view d) (ui_search d) (ui_filterRadio d) (ui_searchRadio d) (ui_action d)
    (menuShown d) x (result d) (clipboardTexts d) (emitted d).
Definition set_result x (d : Dialog) : Dialog :=
  mkDialog (m_dbs d) (m_matches d) (m_searchTimer d) (m_actionMenu d) (m_accepted d)
    (ui_view d) (ui_search d) (ui_filterRadio d) (ui_searchRadio d) (ui_action d)
    (menuShown d) (visible d) x (clipboardTexts d) (emitted d).
Definition set_clipboardTexts x (d : Dialog) : Dialog :=
  mkDialog (m_dbs d) (m_matches d) (m_searchTimer d) (m_actionMenu d) (m_accepted d)
    (ui_view d) (ui_search d) (ui_filterRadio d) (ui_searchRadio d) (ui_action d)
    (menuShown d) (visible d) (result d) x (emitted d).
Definition set_emitted x (d : Dialog) : Dialog :=
  mkDialog (m_dbs d) (m_matches d) (m_searchTimer d) (m_actionMenu d) (m_accepted d)
    (ui_view d) (ui_search d) (ui_filterRadio d) (ui_searchRadio d) (ui_action d)
    (menuShown d) (visible d) (result d) (clipboardTexts d) x.

(** *** Slots: state passing with faults *)

Definition Slot (A : Type) : Type := Dialog -> Fault + (A * Dialog).

#[global] Instance Slot_ret : MRet Slot := fun A a d => inr (a, d).

#[global] Instance Slot_bind : MBind Slot := fun A B f c d =>
  match c d with
  | inl e => inl e
  | inr (a, d') => f a d'
  end.

Definition get : Slot Dialog := fun d => inr (d, d).
Definition modify (f : Dialog -> Dialog) : Slot unit := fun d => inr (tt, f d).
Definition fault {A} (e : Fault) : Slot A := fun _ => inl e.
Definition skip : Slot unit := mret tt.

(** [emit sig]. *)
Definition emit (sig : Signal) : Slot unit :=
  modify (fun d => set_emitted (emitted d ++ [sig]) d).

(** The state a slot leaves, when it returns. *)
Definition exec {A} (c : Slot A) (d : Dialog) : option Dialog :=
  match c d with
  | inl _ => None
  | inr (_, d') => Some d'
  end.

Definition mode (d : Dialog) : SearchMode :=
  if ui_filterRadio d then Filter else Search.

Definition sessionState (d : Dialog) : SessionState :=
  if visible d then Open else Closed (result d).
End Dialog.

Arguments Dialog : clear implicits.
Arguments Slot : clear implicits.

(** What the user, the timer and the window system can do to the dialog. *)
Inductive UserEvent :=
| TextEdited (t : string)              (* typing in m_ui->search *)
| TimerTimeout                         (* m_searchTimer fires *)
| ReturnPressed                        (* enter in m_ui->search *)
| SearchKeyPress (k : Key)             (* key press seen by the filter on m_ui->search *)
| ActionKeyPress (k : Key)             (* key press seen by the filter on m_ui->action *)
| ActionClicked                        (* m_ui->action clicked *)
| CancelClicked                        (* m_ui->cancelButton clicked *)
| RowActivated (m : AutoTypeMatch)     (* the view emits matchActivated(m) *)
| FilterRadioClicked
| SearchRadioClicked
| ContextMenuRequested
| MenuTriggered (a : MenuAction)
| WindowClose.

Section Slots.
Context {Group : Type}.
Variable search : string -> Group -> list Entry.
Variable accepts : string -> AutoTypeMatch -> bool.

Local Abbreviation Dialog := (Dialog Group).
Local Abbreviation Slot := (Slot Group).

(** *** Toolkit behaviour the slots rely on *)

(** [QDialog::done(r)]: hide, set the result, emit [finished(r)] and then
    [accepted()] or [rejected()].  No close event is sent. *)
Definition QDialog_done (r : DialogCode) : Slot unit :=
  modify (set_visible false);;
  modify (set_result r);;
  emit (finished r);;
  match r with
  | Accepted => emit accepted
  | Rejected => emit rejected
  end.

Definition accept : Slot unit := QDialog_done Accepted.
Definition reject : Slot unit := QDialog_done Rejected.

(** [QDialog::closeEvent]: a dialog that is still visible is rejected. *)
Definition QDialog_closeEvent : Slot unit :=
  d ← get;
  if visible d then reject else skip.

(** [QDialog::eventFilter]: the event is not filtered out. *)
Definition QDialog_eventFilter (obj : Watched) (event : QEvent) : Slot bool :=
  mret false.

(** [QTimer::start] on the single-shot [m_searchTimer]: (re)arm it. *)
Definition m_searchTimer_start : Slot unit :=
  modify (set_searchTimer true).

(** The text of [m_ui->search] is set; [textChanged] is emitted when it
    differs, and is connected to [m_searchTimer.start()]. *)
Definition search_setText (t : string) : Slot unit :=
  d ← get;
  if bool_decide (ui_search d = t) then skip
  else modify (set_search t);; m_searchTimer_start.

(** [QLineEdit::clear]. *)
Definition search_clear : Slot unit := search_setText "".

(** [QToolButton::showMenu] on [m_ui->action] and [QMenu::popup]. *)
Definition action_showMenu : Slot unit := modify (set_menuShown true).
Definition m_actionMenu_popup : Slot unit := modify (set_menuShown true).

Definition clipboard_setText (t : string) : Slot unit :=
  modify (fun d => set_clipboardTexts (clipboardTexts d ++ [t]) d).

(** [QAction] objects are enabled when created. *)
Definition buildActionMenu : list bool := replicate 6 true.

(** *** [updateActionMenu] *)

Definition updateActionMenu (m : AutoTypeMatch) : Slot unit :=
  match m.1 with
  | None => modify (set_action false)
  | Some first =>
      modify (set_action true);;
      let hasUsername := negb (isEmpty (username first)) in
      let hasPassword := negb (isEmpty (password first)) in
      let hasTotp := hasTotp first in
      d ← get;
      let actions := m_actionMenu d in
      if (6 <=? length actions)%nat
      then
        let actions := <[0%nat := hasUsername]> actions in
        let actions := <[1%nat := hasPassword]> actions in
        let actions := <[2%nat := hasTotp]> actions in
        let actions := <[3%nat := hasUsername]> actions in
        let actions := <[4%nat := hasPassword]> actions in
        let actions := <[5%nat := hasTotp]> actions in
        modify (set_actionMenu actions)
      else fault AssertionFailure
  end.

(** *** The view inside the dialog *)

(** The view emits [currentMatchChanged(currentMatch())], which the
    constructor connects to [updateActionMenu]. *)
Definition currentMatchChanged : Slot unit :=
  d ← get;
  updateActionMenu (currentMatch (ui_view d)).

Definition view_setMatchList (ms : list AutoTypeMatch) : Slot unit :=
  modify (fun d => set_view (View_setMatchList ms (ui_view d)) d);;
  currentMatchChanged.

Definition view_filterList (text : string) : Slot unit :=
  modify (fun d => set_view (View_filterList accepts text (ui_view d)) d);;
  currentMatchChanged.

Definition view_setCurrentIndex (i : QModelIndex) : Slot unit :=
  modify (fun d => set_view (View_setCurrentIndex i (ui_view d)) d);;
  currentMatchChanged.

(** *** [submitAutoTypeMatch], [performSearch], navigation *)

Definition submitAutoTypeMatch (m : AutoTypeMatch) : Slot unit :=
  accept;;
  modify (set_accepted true);;
  emit (matchActivated m).

Definition performSearch : Slot unit :=
  d ← get;
  if ui_filterRadio d then view_filterList (ui_search d)
  else if isEmpty (ui_search d) then view_setMatchList []
  else view_setMatchList (collectMatches search (ui_search d) (m_dbs d)).

Definition moveSelectionUp : Slot unit :=
  d ← get;
  let current := currentIndex (ui_view d) in
  let previous := sibling (ui_view d) current (row current - 1) 0 in
  if isValid previous then view_setCurrentIndex previous else skip.

Definition moveSelectionDown : Slot unit :=
  d ← get;
  let current := currentIndex (ui_view d) in
  let next := sibling (ui_view d) current (row current + 1) 0 in
  if isValid next then view_setCurrentIndex next else skip.

Definition activateCurrentMatch : Slot unit :=
  d ← get;
  submitAutoTypeMatch (currentMatch (ui_view d)).

(** *** The radio buttons *)

(** The lambda connected to [filterRadio]'s [toggled]. *)
Definition filterRadio_toggled (checked : bool) : Slot unit :=
  if checked then
    d ← get;
    view_setMatchList (m_matches d);;
    performSearch
  else skip.

(** The lambda connected to [searchRadio]'s [toggled]. *)
Definition searchRadio_toggled (checked : bool) : Slot unit :=
  if checked then performSearch else skip.

(** [setChecked(true)] on a radio button of an exclusive pair: nothing
    happens if it is checked already; otherwise it becomes checked, the
    other one is unchecked (its [toggled(false)] is emitted), and then
    [toggled(true)] is emitted. *)
Definition filterRadio_setChecked : Slot unit :=
  d ← get;
  if ui_filterRadio d then skip
  else
    modify (set_filterRadio true);;
    (if ui_searchRadio d
     then modify (set_searchRadio false);; searchRadio_toggled false
     else skip);;
    filterRadio_toggled true.

Definition searchRadio_setChecked : Slot unit :=
  d ← get;
  if ui_searchRadio d then skip
  else
    modify (set_searchRadio true);;
    (if ui_filterRadio d
     then modify (set_filterRadio false);; filterRadio_toggled false
     else skip);;
    searchRadio_toggled true.

(** *** [setMatches] *)

Definition setMatches (matches : list AutoTypeMatch) (dbs : list (Database Group))
  : Slot unit :=
  modify (set_matches matches);;
  modify (set_dbs dbs);;
  d ← get;
  view_setMatchList (m_matches d);;
  match m_matches d with
  | [] => searchRadio_setChecked
  | _ :: _ => filterRadio_setChecked
  end.

(** *** [eventFilter] *)

Definition eventFilter (obj : Watched) (event : QEvent) : Slot bool :=
  match obj, event with
  | obj_action, KeyPress Key_Down => action_showMenu;; mret true
  | obj_search, KeyPress Key_Up => moveSelectionUp;; mret true
  | obj_search, KeyPress Key_Down => moveSelectionDown;; mret true
  | obj_search, KeyPress Key_Escape =>
      d ← get;
      (if isEmpty (ui_search d) then reject else search_clear);;
      mret true
  | _, _ => QDialog_eventFilter obj event
  end.

(** *** The menu actions of [buildActionMenu] *)

Definition typeAction (placeholder : string) : Slot unit :=
  d ← get;
  let m := currentMatch (ui_view d) in
  submitAutoTypeMatch (m.1, placeholder).

(** [clipboard()->setText(currentMatch().first->field()); reject();] *)
Definition copyAction (field : Entry -> string) : Slot unit :=
  d ← get;
  match (currentMatch (ui_view d)).1 with
  | None => fault NullPointerDereference
  | Some first => clipboard_setText (field first);; reject
  end.

Definition triggered (a : MenuAction) : Slot unit :=
  match a with
  | typeUsernameAction => typeAction "{USERNAME}"
  | typePasswordAction => typeAction "{PASSWORD}"
  | typeTotpAction => typeAction "{TOTP}"
  | copyUsernameAction => copyAction username
  | copyPasswordAction => copyAction password
  | copyTotpAction => copyAction totp
  end.

(** The lambda connected to the view's [customContextMenuRequested]. *)
Definition customContextMenuRequested : Slot unit :=
  d ← get;
  match (currentMatch (ui_view d)).1 with
  | Some _ => m_actionMenu_popup
  | None => skip
  end.

(** *** [closeEvent] *)

(** The window size written to the configuration is not part of the state. *)
Definition closeEvent : Slot unit :=
  d ← get;
  (if negb (m_accepted d) then emit rejected else skip);;
  QDialog_closeEvent.

(** *** Sessions *)

(** The dialog after its constructor has run. *)
Definition constructed : Dialog :=
  {| m_dbs := []; m_matches := []; m_searchTimer := false;
     m_actionMenu := buildActionMenu; m_accepted := false;
     ui_view := mkView [] [] InvalidIndex; ui_search := "";
     ui_filterRadio := false; ui_searchRadio := false; ui_action := true;
     menuShown := false; visible := false; result := Rejected;
     clipboardTexts := []; emitted := [] |}.

Definition show : Slot unit := modify (set_visible true).

(** What the caller does to open a session. *)
Definition openSession (matches : list AutoTypeMatch) (dbs : list (Database Group))
  : option Dialog :=
  exec (setMatches matches dbs;; show) constructed.

(** The connections made in the constructor. *)
Definition deliver (ev : UserEvent) : Slot unit :=
  match ev with
  | TextEdited t => search_setText t
  | TimerTimeout =>
      d ← get;
      if m_searchTimer d then modify (set_searchTimer false);; performSearch else skip
  | ReturnPressed => activateCurrentMatch
  | SearchKeyPress k => eventFilter obj_search (KeyPress k);; skip
  | ActionKeyPress k => eventFilter obj_action (KeyPress k);; skip
  | ActionClicked => activateCurrentMatch
  | CancelClicked => reject
  | RowActivated m => submitAutoTypeMatch m
  | FilterRadioClicked => filterRadio_setChecked
  | SearchRadioClicked => searchRadio_setChecked
  | ContextMenuRequested => customContextMenuRequested
  | MenuTriggered a => triggered a
  | WindowClose => closeEvent
  end.

(** Events reach the dialog for as long as it is shown. *)
Fixpoint run (evs : list UserEvent) : Slot unit :=
  match evs with
  | [] => skip
  | ev :: rest =>
      d ← get;
      if visible d then deliver ev;; run rest else skip
  end.

(** How often a signal was emitted. *)
Definition isMatchActivated (s : Signal) : bool :=
  match s with matchActivated _ => true | _ => false end.
Definition isRejected (s : Signal) : bool :=
  match s with rejected => true | _ => false end.

Definition matchActivatedCount (d : Dialog) : nat :=
  length (List.filter isMatchActivated (emitted d)).
Definition rejectedCount (d : Dialog) : nat :=
  length (List.filter isRejected (emitted d)).

(** [Q_ASSERT(actions.size() >= 6)] holds. *)
Definition menuBuilt (d : Dialog) : Prop := (6 <= length (m_actionMenu d))%nat.

(** The current index is invalid or names a displayed row. *)
Definition indexInRange (d : Dialog) : Prop :=
  match currentIndex (ui_view d) with
  | InvalidIndex => True
  | Index r => 0 <= r < Z.of_nat (length (displayed (ui_view d)))
  end.

(** What the caller can observe of a session: whether it is shown, its
    result, the accepted flag and the signals emitted so far. *)
Definition observed (d : Dialog) : bool * DialogCode * bool * list Signal :=
  (visible d, result d, m_accepted d, emitted d).

(** A slot that, when it returns, has changed nothing the caller observes. *)
Definition silent {A} (c : Slot A) : Prop :=
  forall d a d', c d = inr (a, d') -> observed d' = observed d.


Definition isWindowClose (ev : UserEvent) : bool :=
  match ev with WindowClose => true | _ => false end.


(** The view [performSearch] leaves, by mode and query text. *)
Definition searchedView (d : Dialog) : AutoTypeMatchView :=
  if ui_filterRadio d then View_filterList accepts (ui_search d) (ui_view d)
  else if isEmpty (ui_search d) then View_setMatchList [] (ui_view d)
  else View_setMatchList (collectMatches search (ui_search d) (m_dbs d)) (ui_view d).

(** The entry field a copy action sends to the clipboard. *)
Definition copyField (a : MenuAction) : option (Entry -> string) :=
  match a with
  | copyUsernameAction => Some username
  | copyPasswordAction => Some password
  | copyTotpAction => Some totp
  | _ => None
  end.

(** The enablement of one menu action. *)
Definition actionEnabled (a : MenuAction) (d : Dialog) : bool :=
  default false (m_actionMenu d !! ordinal a).
End Slots.

(** ** What a session keeps *)

Section Invariants.
Context {Group : Type}.

Local Abbreviation Dialog := (Dialog Group).

(** At most one of the two radio buttons is checked. *)
Definition exclusive (d : Dialog) : Prop :=
  ui_filterRadio d && ui_searchRadio d = false.

(** While the Filter button is checked the view holds the list given to
    [setMatches]. *)
Definition filterOriginal (d : Dialog) : Prop :=
  ui_filterRadio d = true -> matchList (ui_view d) = m_matches d.

Definition consistent (d : Dialog) : Prop :=
  menuBuilt d ∧ indexInRange d ∧ exclusive d ∧ filterOriginal d.

(** What only [setMatches], the closing slots and the copy actions write. *)
Definition untouched (d : Dialog)
  : list (Database Group) * list AutoTypeMatch * bool * bool * DialogCode
    * list string * list Signal :=
  (m_dbs d, m_matches d, m_accepted d, visible d, result d, clipboardTexts d,
   emitted d).

(** From [d] to [d']: the menu still has its six actions, the caller's lists
    are the same, and what held of the index, the radio buttons and the
    view's list still holds. *)
Definition carriedOver (d d' : Dialog) : Prop :=
  menuBuilt d'
  ∧ m_dbs d' = m_dbs d
  ∧ m_matches d' = m_matches d
  ∧ (indexInRange d -> indexInRange d')
  ∧ (exclusive d -> exclusive d')
  ∧ (filterOriginal d -> filterOriginal d').

(** The placeholder a type action submits. *)
Definition typePlaceholder (a : MenuAction) : option string :=
  match a with
  | typeUsernameAction => Some "{USERNAME}"
  | typePasswordAction => Some "{PASSWORD}"
  | typeTotpAction => Some "{TOTP}"
  | _ => None
  end.

(** The key presses [eventFilter] answers with [true]. *)
Definition consumed (obj : Watched) (event : QEvent) : bool :=
  match obj, event with
  | obj_action, KeyPress Key_Down => true
  | obj_search, KeyPress Key_Up => true
  | obj_search, KeyPress Key_Down => true
  | obj_search, KeyPress Key_Escape => true
  | _, _ => false
  end.

Definition isRadioClick (ev : UserEvent) : bool :=
  match ev with
  | FilterRadioClicked | SearchRadioClicked => true
  | _ => false
  end.

(** A copy action ran on a selected entry: its field went to the clipboard
    and the dialog was rejected. *)
Definition copied (ev : UserEvent) (d d' : Dialog) : Prop :=
  exists a field e,
    ev = MenuTriggered a ∧ copyField a = Some field
    ∧ (currentMatch (ui_view d)).1 = Some e
    ∧ clipboardTexts d' = clipboardTexts d ++ [field e]
    ∧ visible d' = false ∧ result d' = Rejected
    ∧ emitted d' = emitted d ++ [finished Rejected; rejected]
    ∧ m_accepted d' = m_accepted d.

(** What one delivered event does, when its slot returns. *)
Definition stepped (ev : UserEvent) (d d' : Dialog) : Prop :=
  carriedOver d d'
  ∧ (visible d' = true -> untouched d' = untouched d)
  ∧ (isRadioClick ev = false ->
     ui_filterRadio d' = ui_filterRadio d ∧ ui_searchRadio d' = ui_searchRadio d)
  ∧ (clipboardTexts d' = clipboardTexts d ∨ copied ev d d').

(** A copy action triggered while the current match has no entry. *)
Definition copyOfNothing (ev : UserEvent) (d : Dialog) : Prop :=
  exists a field,
    ev = MenuTriggered a ∧ copyField a = Some field
    ∧ (currentMatch (ui_view d)).1 = None.

(** The last text of a run of edits, or the text there was. *)
Definition lastText (texts : list string) (text : string) : string :=
  default text (last texts).
End Invariants.

(** ** Sample data *)

Definition mail : Entry :=
  mkEntry "Mail" "bob" "" false "" "{USERNAME}{TAB}{PASSWORD}{ENTER}" [].

Definition bank : Entry :=
  mkEntry "Bank" "alice" "s3cret" true "123456" "{USERNAME}{ENTER}"
    [mkAssociation "Bank*" "{USERNAME}{ENTER}"; mkAssociation "Login" "{TOTP}";
     mkAssociation "Scratch" ""; mkAssociation "Code" "{TOTP}"].

Definition blank : Entry :=
  mkEntry "Blank" "" "" false "" "" [mkAssociation "Any" ""].

(** A store that is a flat list of entries, searched by title prefix. *)
Definition prefixSearch (text : string) (g : list Entry) : list Entry :=
  List.filter (fun e => String.prefix text (title e)) g.

Definition prefixAccepts (text : string) (m : AutoTypeMatch) : bool :=
  match m.1 with
  | Some e => String.prefix text (title e)
  | None => false
  end.

Definition storeA : Database (list Entry) := mkDatabase [mail; bank; blank].

(** A session opened without candidates: Search mode, nothing selected. *)
Definition emptySession : Dialog (list Entry) :=
  Eval vm_compute in
    default constructed (openSession prefixSearch prefixAccepts [] [storeA]).

(** A session opened with one candidate, which is selected: Filter mode. *)
Definition mailSession : Dialog (list Entry) :=
  Eval vm_compute in
    default constructed
      (openSession prefixSearch prefixAccepts
         [(Some mail, effectiveAutoTypeSequence mail)] [storeA]).

(** A session opened with the two candidates of one entry. *)
Definition bankSession : Dialog (list Entry) :=
  Eval vm_compute in
    default constructed
      (openSession prefixSearch prefixAccepts
         [(Some bank, "{USERNAME}{ENTER}"); (Some bank, "{TOTP}")] [storeA]).

(** The empty session after the user typed "Ma" and the timer fired. *)
Definition searchedSession : Dialog (list Entry) :=
  Eval vm_compute in
    default emptySession
      (exec (run prefixSearch prefixAccepts [TextEdited "Ma"; TimerTimeout])
         emptySession).

(** The one-candidate session with "Ma" typed, switched to Search mode. *)
Definition mailSearching : Dialog (list Entry) :=
  Eval vm_compute in
    default mailSession
      (exec (searchRadio_setChecked prefixSearch prefixAccepts)
         (set_search "Ma" mailSession)).

(** ... and then pressed enter. *)
Definition acceptedSession : Dialog (list Entry) :=
  Eval vm_compute in
    default searchedSession
      (exec (deliver prefixSearch prefixAccepts ReturnPressed) searchedSession).

(** The one-candidate session after its username was copied. *)
Definition copiedSession : Dialog (list Entry) :=
  Eval vm_compute in
    default mailSession
      (exec (deliver prefixSearch prefixAccepts (MenuTriggered copyUsernameAction))
         mailSession).

(** The one-candidate session with "Ma" typed and the timer running. *)
Definition mailTyped : Dialog (list Entry) :=
  Eval vm_compute in set_searchTimer true (set_search "Ma" mailSession).

(** * Properties *)

Lemma isEmpty_true (s : string) : isEmpty s = true <-> s = "".
Proof. destruct s; simpl; split; congruence. Qed.

Lemma isEmpty_false (s : string) : isEmpty s = false <-> s ≠ "".
Proof. destruct s; simpl; split; congruence. Qed.

(** ** The collector *)

(** The association loop, started with a set holding what was emitted so far
    for the entry, appends the associated templates the specification names.
    Induction on the stored associations, the loop state generalised. *)
Lemma foldl_assocStep (e : Entry) (assocs : list Association) :
  forall (matches : list AutoTypeMatch) (sequences : gset string) (seen : list string),
    (forall s, s ∈ sequences <-> s ∈ seen) ->
    fst (foldl (assocStep e) (matches, sequences) assocs)
    = matches ++ ((fun t => (Some e, t)) <$> emitAssociated seen (sequence <$> assocs)).
Proof.
  induction assocs as [|a assocs IH]; intros matches sequences seen Hseen.
  - simpl. by rewrite app_nil_r.
  - cbn [foldl fmap list_fmap emitAssociated]. unfold assocStep at 2.
    destruct (isEmpty (sequence a)) eqn:Hempty.
    + apply isEmpty_true in Hempty.
      rewrite andb_false_r, bool_decide_eq_false_2 by (intros [? _]; done).
      by apply IH.
    + apply isEmpty_false in Hempty. rewrite andb_true_r.
      destruct (decide (sequence a ∈ sequences)) as [Hin|Hnin].
      * rewrite (bool_decide_eq_true_2 _ Hin). simpl.
        rewrite bool_decide_eq_false_2 by (intros [_ Hn]; apply Hn, Hseen, Hin).
        by apply IH.
      * rewrite (bool_decide_eq_false_2 _ Hnin). simpl.
        rewrite bool_decide_eq_true_2
          by (split; [done | intros Hn; apply Hnin, Hseen, Hn]).
        rewrite (IH _ _ (sequence a :: seen)).
        { rewrite fmap_cons, <- app_assoc. done. }
        intros s. rewrite elem_of_union, elem_of_singleton, elem_of_cons, Hseen.
        tauto.
Qed.

Lemma entryStep_matchesOf (matches : list AutoTypeMatch) (e : Entry) :
  entryStep matches e = matches ++ matchesOf e.
Proof.
  unfold entryStep, matchesOf, templatesOf.
  destruct (isEmpty (effectiveAutoTypeSequence e)) eqn:Hempty; simpl.
  - apply isEmpty_true in Hempty.
    rewrite bool_decide_eq_false_2 by (intros Hn; done).
    apply foldl_assocStep. intros s. set_solver.
  - apply isEmpty_false in Hempty.
    rewrite (bool_decide_eq_true_2 _ Hempty).
    rewrite (foldl_assocStep _ _ _ _ [effectiveAutoTypeSequence e]).
    + rewrite fmap_app, <- app_assoc. done.
    + intros s. set_solver.
Qed.

Lemma foldl_entryStep (es : list Entry) :
  forall matches, foldl entryStep matches es = matches ++ (es ≫= matchesOf).
Proof.
  induction es as [|e es IH]; intros matches; simpl.
  - by rewrite app_nil_r.
  - rewrite IH, entryStep_matchesOf, <- app_assoc. done.
Qed.

Section CollectFacts.
Context {Group : Type}.
Variable search : string -> Group -> list Entry.

Lemma foldl_dbStep (text : string) (dbs : list (Database Group)) :
  forall matches,
    foldl (dbStep search text) matches dbs
    = matches ++ (dbs ≫= fun db => search text (rootGroup db) ≫= matchesOf).
Proof.
  induction dbs as [|db dbs IH]; intros matches; simpl.
  - by rewrite app_nil_r.
  - rewrite IH. unfold dbStep. rewrite foldl_entryStep, <- app_assoc. done.
Qed.

(** The loops of [performSearch] compute the collector of the specification. *)
Lemma collectMatches_spec (text : string) (dbs : list (Database Group)) :
  collectMatches search text dbs = collectSpec search text dbs.
Proof. unfold collectMatches, collectSpec. by rewrite foldl_dbStep. Qed.

End CollectFacts.

(** What [emitAssociated] lets through: the non-empty strings of the input
    that were not emitted before, each once. *)
Lemma elem_of_emitAssociated (seqs : list string) :
  forall seen t,
    t ∈ emitAssociated seen seqs <-> t ≠ "" ∧ (t ∉ seen) ∧ t ∈ seqs.
Proof.
  induction seqs as [|s seqs IH]; intros seen t; simpl.
  - set_solver.
  - case_bool_decide as Hs.
    + rewrite elem_of_cons, IH, !elem_of_cons.
      destruct (decide (t = s)) as [->|Hne]; naive_solver.
    + rewrite IH, elem_of_cons.
      destruct (decide (t = s)) as [->|Hne]; naive_solver.
Qed.

Lemma NoDup_emitAssociated (seqs : list string) :
  forall seen, NoDup (emitAssociated seen seqs).
Proof.
  induction seqs as [|s seqs IH]; intros seen; simpl.
  - constructor.
  - case_bool_decide; [|apply IH].
    constructor; [|apply IH].
    rewrite elem_of_emitAssociated. set_solver.
Qed.

Lemma elem_of_templatesOf (e : Entry) (t : string) :
  t ∈ templatesOf e
  <-> t ≠ "" ∧ (t = effectiveAutoTypeSequence e ∨ t ∈ sequence <$> autoTypeAssociations e).
Proof.
  unfold templatesOf. rewrite elem_of_app, elem_of_emitAssociated.
  case_bool_decide as Hdef.
  - rewrite list_elem_of_singleton.
    destruct (decide (t = effectiveAutoTypeSequence e)) as [->|Hne]; [tauto|].
    tauto.
  - assert (effectiveAutoTypeSequence e = "") as Hd
      by (destruct (decide (effectiveAutoTypeSequence e = "")); [done | contradiction]).
    rewrite Hd. split.
    + intros [Hin|(? & ? & ?)]; [by apply elem_of_nil in Hin | tauto].
    + intros [Hne [->|Hin]]; [done|]. right. split; [done|]. split; [|done].
      apply not_elem_of_nil.
Qed.

Lemma NoDup_templatesOf (e : Entry) : NoDup (templatesOf e).
Proof.
  unfold templatesOf. apply NoDup_app. split; [|split].
  - case_bool_decide; [apply NoDup_singleton | constructor].
  - intros t Hown. rewrite elem_of_emitAssociated. tauto.
  - apply NoDup_emitAssociated.
Qed.

(** The default sequence, when there is one, is the first template. *)
Lemma head_templatesOf (e : Entry) :
  effectiveAutoTypeSequence e ≠ "" ->
  head (templatesOf e) = Some (effectiveAutoTypeSequence e).
Proof.
  intros Hdef. unfold templatesOf. by rewrite (bool_decide_eq_true_2 _ Hdef).
Qed.

Lemma matchesOf_nil (e : Entry) :
  effectiveAutoTypeSequence e = "" ->
  (forall a, a ∈ autoTypeAssociations e -> sequence a = "") ->
  matchesOf e = [].
Proof.
  intros Hdef Hassoc. unfold matchesOf.
  destruct (templatesOf e) as [|t ts] eqn:Hts; [done|].
  assert (t ∈ templatesOf e) as Hin by (rewrite Hts; left).
  apply elem_of_templatesOf in Hin as [Hne [->|Hin]]; [done|].
  apply list_elem_of_fmap in Hin as (a & -> & Ha).
  by specialize (Hassoc a Ha).
Qed.


(** ** Slots *)

#[local] Arguments Nat.leb : simpl never.

Ltac unfold_slot :=
  unfold mbind, mret, Slot_bind, Slot_ret, get, modify, skip, fault, emit in *.

Ltac run_slot := repeat (progress (unfold_slot; simpl)).

Section SlotFacts.
Context {Group : Type}.
Variable search : string -> Group -> list Entry.
Variable accepts : string -> AutoTypeMatch -> bool.

Local Abbreviation Dialog := (Dialog Group).
Local Abbreviation Slot := (Slot Group).

(** *** The action menu *)

(** With the six actions in the menu, [updateActionMenu] returns; it writes
    the enablement of the button and, for a non-null entry, of the actions,
    and nothing else. *)
Lemma updateActionMenu_built (m : AutoTypeMatch) (d : Dialog) :
  menuBuilt d ->
  exists acts,
    updateActionMenu m d
    = inr (tt, set_actionMenu acts (set_action (bool_decide (is_Some m.1)) d))
    ∧ length acts = length (m_actionMenu d)
    ∧ (m.1 = None -> acts = m_actionMenu d)
    ∧ (forall e, m.1 = Some e ->
         acts !! 0%nat = Some (negb (isEmpty (username e)))
         ∧ acts !! 1%nat = Some (negb (isEmpty (password e)))
         ∧ acts !! 2%nat = Some (hasTotp e)
         ∧ acts !! 3%nat = Some (negb (isEmpty (username e)))
         ∧ acts !! 4%nat = Some (negb (isEmpty (password e)))
         ∧ acts !! 5%nat = Some (hasTotp e)).
Proof.
  intros Hbuilt. unfold menuBuilt in Hbuilt. unfold updateActionMenu.
  destruct m as [[e|] t]; simpl.
  - unfold_slot. simpl.
    rewrite (proj2 (Nat.leb_le _ _) Hbuilt).
    eexists. split; [reflexivity|]. split.
    + by rewrite !length_insert.
    + split; [discriminate|]. intros e' [= <-].
      destruct (m_actionMenu d) as [|a0 [|a1 [|a2 [|a3 [|a4 [|a5 rest]]]]]];
        simpl in Hbuilt; try lia.
      repeat split; reflexivity.
  - exists (m_actionMenu d). unfold_slot.
    split; [reflexivity|]. split; [done|]. split; [done|discriminate].
Qed.

(** Whatever the menu holds, a slot that returns from [updateActionMenu] has
    changed the two enablement fields only. *)
Lemma updateActionMenu_returns (m : AutoTypeMatch) (d d' : Dialog) (u : unit) :
  updateActionMenu m d = inr (u, d') ->
  exists acts en, d' = set_actionMenu acts (set_action en d).
Proof.
  unfold updateActionMenu. destruct m as [[e|] t]; simpl; unfold_slot; simpl.
  - destruct (6 <=? length (m_actionMenu d))%nat; [|discriminate].
    intros [= <-]. eauto.
  - intros [= <-]. by exists (m_actionMenu d), false.
Qed.

(** *** Sequencing *)

Lemma bind_inr {A B} (c : Slot A) (k : A -> Slot B) (d d' : Dialog) (a : A) :
  c d = inr (a, d') -> (c ≫= k) d = k a d'.
Proof. intros H. unfold mbind, Slot_bind. by rewrite H. Qed.

Lemma bind_returns {A B} (c : Slot A) (k : A -> Slot B) (d d2 : Dialog) (b : B) :
  (c ≫= k) d = inr (b, d2) ->
  exists a d1, c d = inr (a, d1) ∧ k a d1 = inr (b, d2).
Proof.
  unfold mbind, Slot_bind. destruct (c d) as [e|[a d1]]; [discriminate|]. eauto.
Qed.

(** *** The view *)

Lemma currentMatchChanged_built (d : Dialog) :
  menuBuilt d ->
  exists acts en,
    currentMatchChanged d = inr (tt, set_actionMenu acts (set_action en d))
    ∧ length acts = length (m_actionMenu d).
Proof.
  intros Hbuilt. unfold currentMatchChanged.
  destruct (updateActionMenu_built (currentMatch (ui_view d)) d Hbuilt)
    as (acts & Hrun & Hlen & _).
  exists acts, (bool_decide (is_Some (currentMatch (ui_view d)).1)).
  split; [|done]. unfold_slot. exact Hrun.
Qed.

Lemma view_setMatchList_built (ms : list AutoTypeMatch) (d : Dialog) :
  menuBuilt d ->
  exists acts en,
    view_setMatchList ms d
    = inr (tt, set_actionMenu acts
                 (set_action en (set_view (View_setMatchList ms (ui_view d)) d)))
    ∧ length acts = length (m_actionMenu d).
Proof.
  intros Hbuilt. unfold view_setMatchList.
  destruct (currentMatchChanged_built
              (set_view (View_setMatchList ms (ui_view d)) d) Hbuilt)
    as (acts & en & Hrun & Hlen).
  exists acts, en. split; [|done]. unfold_slot. exact Hrun.
Qed.

Lemma view_filterList_built (text : string) (d : Dialog) :
  menuBuilt d ->
  exists acts en,
    view_filterList accepts text d
    = inr (tt, set_actionMenu acts
                 (set_action en (set_view (View_filterList accepts text (ui_view d)) d)))
    ∧ length acts = length (m_actionMenu d).
Proof.
  intros Hbuilt. unfold view_filterList.
  destruct (currentMatchChanged_built
              (set_view (View_filterList accepts text (ui_view d)) d) Hbuilt)
    as (acts & en & Hrun & Hlen).
  exists acts, en. split; [|done]. unfold_slot. exact Hrun.
Qed.

Lemma view_setCurrentIndex_built (i : QModelIndex) (d : Dialog) :
  menuBuilt d ->
  exists acts en,
    view_setCurrentIndex i d
    = inr (tt, set_actionMenu acts
                 (set_action en (set_view (View_setCurrentIndex i (ui_view d)) d)))
    ∧ length acts = length (m_actionMenu d).
Proof.
  intros Hbuilt. unfold view_setCurrentIndex.
  destruct (currentMatchChanged_built
              (set_view (View_setCurrentIndex i (ui_view d)) d) Hbuilt)
    as (acts & en & Hrun & Hlen).
  exists acts, en. split; [|done]. unfold_slot. exact Hrun.
Qed.

Lemma performSearch_built (d : Dialog) :
  menuBuilt d ->
  exists acts en,
    performSearch search accepts d
    = inr (tt, set_actionMenu acts
                 (set_action en (set_view (searchedView search accepts d) d)))
    ∧ length acts = length (m_actionMenu d).
Proof.
  intros Hbuilt. unfold performSearch, searchedView.
  unfold mbind at 1, Slot_bind, get.
  destruct (ui_filterRadio d); [by apply view_filterList_built|].
  destruct (isEmpty (ui_search d)); by apply view_setMatchList_built.
Qed.

(** *** Enablement of the menu actions *)

(** C2 (as amended): on a selection change with the six actions in the menu,
    [updateActionMenu] returns.  For an empty selection it disables the action
    button and leaves the enablement of the six menu actions as it was; for a
    selected match it enables the button and enables the type and the copy
    action of a field exactly when the entry has a username, has a password,
    has TOTP. *)
Theorem updateActionMenu_enablement (m : AutoTypeMatch) (d : Dialog) :
  menuBuilt d ->
  exists d',
    updateActionMenu m d = inr (tt, d')
    ∧ match m.1 with
      | None =>
          ui_action d' = false
          ∧ m_actionMenu d' = m_actionMenu d
      | Some e =>
          ui_action d' = true
          ∧ actionEnabled typeUsernameAction d' = negb (isEmpty (username e))
          ∧ actionEnabled copyUsernameAction d' = negb (isEmpty (username e))
          ∧ actionEnabled typePasswordAction d' = negb (isEmpty (password e))
          ∧ actionEnabled copyPasswordAction d' = negb (isEmpty (password e))
          ∧ actionEnabled typeTotpAction d' = hasTotp e
          ∧ actionEnabled copyTotpAction d' = hasTotp e
      end.
Proof.
  intros Hbuilt.
  destruct (updateActionMenu_built m d Hbuilt) as (acts & Hrun & _ & Hnone & Hsome).
  eexists. split; [exact Hrun|].
  destruct m as [[e|] t]; simpl in *.
  - destruct (Hsome e eq_refl) as (H0 & H1 & H2 & H3 & H4 & H5).
    unfold actionEnabled; simpl.
    rewrite H0, H1, H2, H3, H4, H5. by repeat split.
  - split; [done|]. by rewrite Hnone.
Qed.

(** *** The Search dispatch *)

(** C4: in Search mode [performSearch] returns; with an empty query text the
    displayed list is empty, otherwise it is the collector of the
    specification: per store and per found entry the default sequence if
    non-empty, then the associated sequences that are non-empty and not yet
    emitted for the entry.  The templates of an entry are pairwise distinct
    and are exactly its non-empty sequences, the default one first; an entry
    with only empty sequences contributes nothing. *)
Theorem performSearch_search_mode (d : Dialog) :
  menuBuilt d ->
  mode d = Search ->
  (exists d',
     performSearch search accepts d = inr (tt, d')
     ∧ displayed (ui_view d')
       = if isEmpty (ui_search d) then []
         else collectSpec search (ui_search d) (m_dbs d))
  ∧ (forall e,
       NoDup (templatesOf e)
       ∧ (forall t, t ∈ templatesOf e
            <-> t ≠ "" ∧ (t = effectiveAutoTypeSequence e
                          ∨ t ∈ sequence <$> autoTypeAssociations e))
       ∧ (effectiveAutoTypeSequence e ≠ ""
          -> head (templatesOf e) = Some (effectiveAutoTypeSequence e))
       ∧ (effectiveAutoTypeSequence e = ""
          -> (forall a, a ∈ autoTypeAssociations e -> sequence a = "")
          -> matchesOf e = [])).
Proof.
  intros Hbuilt Hmode. split.
  - destruct (performSearch_built d Hbuilt) as (acts & en & Hrun & _).
    eexists. split; [exact Hrun|]. simpl.
    unfold searchedView, mode in *.
    destruct (ui_filterRadio d); [discriminate|].
    destruct (isEmpty (ui_search d)); simpl; [done|].
    apply collectMatches_spec.
  - intros e. split; [apply NoDup_templatesOf|].
    split; [apply elem_of_templatesOf|].
    split; [apply head_templatesOf | apply matchesOf_nil].
Qed.

(** *** The radio buttons *)

Lemma filterRadio_setChecked_switch (d : Dialog) :
  menuBuilt d ->
  ui_filterRadio d = false ->
  exists acts en,
    filterRadio_setChecked search accepts d
    = inr (tt, set_actionMenu acts (set_action en
                 (set_view (View_filterList accepts (ui_search d)
                              (View_setMatchList (m_matches d) (ui_view d)))
                    (set_searchRadio false (set_filterRadio true d)))))
    ∧ length acts = length (m_actionMenu d).
Proof.
  intros Hbuilt Hfilter.
  set (d0 := set_searchRadio false (set_filterRadio true d)).
  assert (menuBuilt d0) as Hbuilt0 by exact Hbuilt.
  destruct (view_setMatchList_built (m_matches d) d0 Hbuilt0)
    as (acts1 & en1 & Hset & Hlen1).
  set (d1 := set_actionMenu acts1 (set_action en1
               (set_view (View_setMatchList (m_matches d) (ui_view d0)) d0))) in Hset.
  assert (menuBuilt d1) as Hbuilt1 by (unfold menuBuilt; simpl; by rewrite Hlen1).
  destruct (performSearch_built d1 Hbuilt1) as (acts & en & Hrun & Hlen).
  exists acts, en. split; [|rewrite Hlen; simpl; by rewrite Hlen1].
  assert (filterRadio_toggled search accepts true d0
          = inr (tt, set_actionMenu acts (set_action en
                   (set_view (searchedView search accepts d1) d1)))) as Htoggled.
  { unfold filterRadio_toggled. unfold mbind at 1, Slot_bind, get.
    change (m_matches d0) with (m_matches d).
    rewrite (bind_inr _ _ _ _ _ Hset). exact Hrun. }
  unfold filterRadio_setChecked. unfold mbind at 1, Slot_bind, get.
  rewrite Hfilter.
  destruct (ui_searchRadio d) eqn:Hsearch.
  - unfold_slot. simpl. exact Htoggled.
  - unfold_slot. simpl.
    replace (set_filterRadio true d) with d0; [exact Htoggled|].
    subst d0. destruct d; simpl in *. by subst.
Qed.

Lemma searchRadio_setChecked_switch (d : Dialog) :
  menuBuilt d ->
  ui_searchRadio d = false ->
  exists acts en,
    searchRadio_setChecked search accepts d
    = inr (tt, set_actionMenu acts (set_action en
                 (set_view (View_setMatchList
                              (if isEmpty (ui_search d) then []
                               else collectMatches search (ui_search d) (m_dbs d))
                              (ui_view d))
                    (set_filterRadio false (set_searchRadio true d)))))
    ∧ length acts = length (m_actionMenu d).
Proof.
  intros Hbuilt Hsearch.
  set (d0 := set_filterRadio false (set_searchRadio true d)).
  assert (menuBuilt d0) as Hbuilt0 by exact Hbuilt.
  destruct (performSearch_built d0 Hbuilt0) as (acts & en & Hrun & Hlen).
  exists acts, en. split; [|done].
  assert (searchRadio_toggled search accepts true d0
          = inr (tt, set_actionMenu acts (set_action en
                   (set_view (searchedView search accepts d0) d0)))) as Htoggled
    by exact Hrun.
  assert (searchedView search accepts d0
          = View_setMatchList
              (if isEmpty (ui_search d) then []
               else collectMatches search (ui_search d) (m_dbs d)) (ui_view d)) as Hview.
  { unfold searchedView. simpl. by destruct (isEmpty (ui_search d)). }
  rewrite Hview in Htoggled.
  unfold searchRadio_setChecked. unfold mbind at 1, Slot_bind, get.
  rewrite Hsearch.
  destruct (ui_filterRadio d) eqn:Hfilter.
  - unfold_slot. simpl. exact Htoggled.
  - unfold_slot. simpl.
    replace (set_searchRadio true d) with d0; [exact Htoggled|].
    subst d0. destruct d; simpl in *. by subst.
Qed.

(** *** The mode at session start *)

(** C5: [setMatches] returns, stores the supplied candidate list, and leaves
    the mode Filter when that list is non-empty and Search when it is empty,
    whichever radio button (at most one) was checked before. *)
Theorem setMatches_mode (matches : list AutoTypeMatch) (dbs : list (Database Group))
    (d : Dialog) :
  menuBuilt d ->
  ui_filterRadio d && ui_searchRadio d = false ->
  exists d',
    setMatches search accepts matches dbs d = inr (tt, d')
    ∧ m_matches d' = matches
    ∧ mode d' = match matches with
                | [] => Search
                | _ :: _ => Filter
                end.
Proof.
  intros Hbuilt Hexcl.
  set (d0 := set_dbs dbs (set_matches matches d)).
  assert (menuBuilt d0) as Hbuilt0 by exact Hbuilt.
  destruct (view_setMatchList_built matches d0 Hbuilt0) as (acts1 & en1 & Hset & Hlen1).
  set (d1 := set_actionMenu acts1 (set_action en1
               (set_view (View_setMatchList matches (ui_view d0)) d0))) in Hset.
  assert (menuBuilt d1) as Hbuilt1 by (unfold menuBuilt; simpl; by rewrite Hlen1).
  assert (setMatches search accepts matches dbs d
          = (match matches with
             | [] => searchRadio_setChecked search accepts
             | _ :: _ => filterRadio_setChecked search accepts
             end) d1) as Hstep.
  { unfold setMatches. unfold_slot. simpl.
    change (set_dbs dbs (set_matches matches d)) with d0.
    change (view_setMatchList matches d0) with (view_setMatchList (m_matches d0) d0).
    simpl m_matches. rewrite Hset. done. }
  rewrite Hstep. clear Hstep.
  destruct matches as [|m ms].
  - destruct (ui_searchRadio d) eqn:Hsearch.
    + exists d1. unfold searchRadio_setChecked. unfold_slot. simpl. rewrite Hsearch.
      split; [done|]. split; [done|]. unfold mode. simpl.
      rewrite andb_true_r in Hexcl. by rewrite Hexcl.
    + destruct (searchRadio_setChecked_switch d1 Hbuilt1 Hsearch)
        as (acts & en & Hrun & _).
      eexists. split; [exact Hrun|]. done.
  - destruct (ui_filterRadio d) eqn:Hfilter.
    + exists d1. unfold filterRadio_setChecked. unfold_slot. simpl. rewrite Hfilter.
      split; [done|]. split; [done|]. unfold mode. simpl. by rewrite Hfilter.
    + destruct (filterRadio_setChecked_switch d1 Hbuilt1 Hfilter)
        as (acts & en & Hrun & _).
      eexists. split; [exact Hrun|]. done.
Qed.

(** *** Switching the mode *)

(** C6: checking the Filter button while it is unchecked returns with the
    mode Filter and the displayed list equal to the original candidate list
    narrowed by the current query text: the view is first given the original
    list and then filtered.  Checking the Search button while it is unchecked
    returns with the mode Search and the displayed list equal to what the
    Search dispatch computes for the current text.  Both happen within the
    switch itself, whether or not the timer is running, and leave the timer
    as it was. *)
Theorem mode_switch_recomputes (d : Dialog) :
  menuBuilt d ->
  (ui_filterRadio d = false ->
   exists d',
     filterRadio_setChecked search accepts d = inr (tt, d')
     ∧ mode d' = Filter
     ∧ ui_view d' = View_filterList accepts (ui_search d)
                      (View_setMatchList (m_matches d) (ui_view d))
     ∧ displayed (View_setMatchList (m_matches d) (ui_view d)) = m_matches d
     ∧ displayed (ui_view d') = filtered accepts (ui_search d) (m_matches d)
     ∧ m_searchTimer d' = m_searchTimer d
     ∧ ui_search d' = ui_search d)
  ∧ (ui_searchRadio d = false ->
     exists d',
       searchRadio_setChecked search accepts d = inr (tt, d')
       ∧ mode d' = Search
       ∧ displayed (ui_view d')
         = (if isEmpty (ui_search d) then []
            else collectMatches search (ui_search d) (m_dbs d))
       ∧ m_searchTimer d' = m_searchTimer d
       ∧ ui_search d' = ui_search d).
Proof.
  intros Hbuilt. split.
  - intros Hfilter.
    destruct (filterRadio_setChecked_switch d Hbuilt Hfilter) as (acts & en & Hrun & _).
    eexists. split; [exact Hrun|]. by repeat split.
  - intros Hsearch.
    destruct (searchRadio_setChecked_switch d Hbuilt Hsearch) as (acts & en & Hrun & _).
    eexists. split; [exact Hrun|]. by repeat split.
Qed.

(** *** Closing the dialog *)

Lemma reject_run (d : Dialog) :
  reject d
  = inr (tt, set_emitted (emitted d ++ [finished Rejected; rejected])
               (set_result Rejected (set_visible false d))).
Proof. unfold reject, QDialog_done. run_slot. by rewrite <- app_assoc. Qed.

Lemma submitAutoTypeMatch_run (m : AutoTypeMatch) (d : Dialog) :
  submitAutoTypeMatch m d
  = inr (tt, set_emitted (emitted d ++ [finished Accepted; accepted; matchActivated m])
               (set_accepted true (set_result Accepted (set_visible false d)))).
Proof.
  unfold submitAutoTypeMatch, accept, QDialog_done. run_slot.
  by rewrite <- !app_assoc.
Qed.

Lemma matchActivatedCount_app (d : Dialog) (sigs : list Signal) :
  length (List.filter isMatchActivated (emitted d ++ sigs))
  = (matchActivatedCount d + length (List.filter isMatchActivated sigs))%nat.
Proof. unfold matchActivatedCount. by rewrite List.filter_app, length_app. Qed.

Lemma rejectedCount_app (d : Dialog) (sigs : list Signal) :
  length (List.filter isRejected (emitted d ++ sigs))
  = (rejectedCount d + length (List.filter isRejected sigs))%nat.
Proof. unfold rejectedCount. by rewrite List.filter_app, length_app. Qed.

(** *** Escape *)

(** C7: in an open session the event filter consumes Escape pressed in the
    search field.  With a non-empty query text the text is cleared, the
    session stays open and nothing is emitted; with an empty query text the
    session closes as Cancelled, [rejected] being emitted and [matchActivated]
    not. *)
Theorem escape_key (d : Dialog) :
  sessionState d = Open ->
  exists d',
    eventFilter obj_search (KeyPress Key_Escape) d = inr (true, d')
    ∧ if isEmpty (ui_search d)
      then sessionState d' = Closed Rejected
           ∧ emitted d' = emitted d ++ [finished Rejected; rejected]
           ∧ m_accepted d' = m_accepted d
      else ui_search d' = ""
           ∧ sessionState d' = Open
           ∧ emitted d' = emitted d.
Proof.
  intros Hopen. unfold eventFilter.
  unfold mbind at 1, Slot_bind, get.
  destruct (isEmpty (ui_search d)) eqn:Hempty.
  - rewrite (bind_inr _ _ _ _ _ (reject_run d)). eexists. split; [reflexivity|].
    by repeat split.
  - unfold search_clear, search_setText. unfold_slot. simpl.
    apply isEmpty_false in Hempty.
    rewrite (bool_decide_eq_false_2 _ Hempty). simpl.
    eexists. split; [reflexivity|]. by repeat split.
Qed.

(** *** Copy actions *)

Lemma copyAction_run (field : Entry -> string) (d : Dialog) :
  copyAction field d
  = match (currentMatch (ui_view d)).1 with
    | None => inl NullPointerDereference
    | Some e =>
        inr (tt, set_emitted (emitted d ++ [finished Rejected; rejected])
                   (set_result Rejected (set_visible false
                      (set_clipboardTexts (clipboardTexts d ++ [field e]) d))))
    end.
Proof.
  unfold copyAction. unfold mbind at 1, Slot_bind, get.
  destruct (currentMatch (ui_view d)).1 as [e|]; [|done].
  unfold clipboard_setText. unfold mbind, Slot_bind, modify.
  by rewrite reject_run.
Qed.

Lemma triggered_copy (a : MenuAction) (field : Entry -> string) :
  copyField a = Some field -> @triggered Group a = copyAction field.
Proof. destruct a; simpl; intros [= <-]; reflexivity. Qed.

(** C8: with a match selected, a copy action returns, hands exactly the
    username, password or TOTP of the selected entry to the clipboard and
    closes the session as Cancelled: [rejected] is emitted, [m_accepted] is
    not set and no [matchActivated] is emitted. *)
Theorem copy_action_rejects (a : MenuAction) (field : Entry -> string)
    (e : Entry) (d : Dialog) :
  copyField a = Some field ->
  (currentMatch (ui_view d)).1 = Some e ->
  exists d',
    triggered a d = inr (tt, d')
    ∧ clipboardTexts d' = clipboardTexts d ++ [field e]
    ∧ sessionState d' = Closed Rejected
    ∧ emitted d' = emitted d ++ [finished Rejected; rejected]
    ∧ matchActivatedCount d' = matchActivatedCount d
    ∧ m_accepted d' = m_accepted d.
Proof.
  intros Hfield Hsel. rewrite (triggered_copy _ _ Hfield), copyAction_run, Hsel.
  eexists. split; [reflexivity|]. repeat split.
  unfold matchActivatedCount at 1. simpl emitted.
  rewrite matchActivatedCount_app. simpl. lia.
Qed.

Lemma currentMatch_invalid (v : AutoTypeMatchView) :
  currentIndex v = InvalidIndex -> currentMatch v = nullMatch.
Proof. unfold currentMatch. by intros ->. Qed.

(** The session opened with no candidates: Search mode, nothing displayed,
    no selection, the action button disabled. *)
Lemma openSession_empty (dbs : list (Database Group)) :
  openSession search accepts [] dbs
  = Some {| m_dbs := dbs; m_matches := []; m_searchTimer := false;
            m_actionMenu := buildActionMenu; m_accepted := false;
            ui_view := mkView [] [] InvalidIndex; ui_search := "";
            ui_filterRadio := false; ui_searchRadio := true; ui_action := false;
            menuShown := false; visible := true; result := Rejected;
            clipboardTexts := []; emitted := [] |}.
Proof. reflexivity. Qed.

Lemma run_cons_open (ev : UserEvent) (evs : list UserEvent) (d : Dialog) :
  visible d = true ->
  run search accepts (ev :: evs) d
  = (deliver search accepts ev ;; run search accepts evs) d.
Proof.
  intros Hopen. cbn [run]. unfold mbind at 1, Slot_bind, get. by rewrite Hopen.
Qed.

Lemma run_cons_closed (ev : UserEvent) (evs : list UserEvent) (d : Dialog) :
  visible d = false -> run search accepts (ev :: evs) d = inr (tt, d).
Proof.
  intros Hclosed. cbn [run]. unfold mbind at 1, Slot_bind, get. by rewrite Hclosed.
Qed.

(** C10: a copy action faults on a null pointer exactly when the current
    match has no entry, so it returns only when a match is selected; the
    context-menu handler, which tests the entry first, then does nothing.  A
    session opened with no candidates has no selection, and a copy action
    triggered there faults. *)
Theorem copy_action_unguarded (a : MenuAction) (field : Entry -> string) (d : Dialog) :
  copyField a = Some field ->
  (triggered a d = inl NullPointerDereference <-> (currentMatch (ui_view d)).1 = None)
  ∧ (currentIndex (ui_view d) = InvalidIndex ->
     triggered a d = inl NullPointerDereference)
  ∧ ((currentMatch (ui_view d)).1 = None ->
     customContextMenuRequested d = inr (tt, d))
  ∧ (forall dbs, exists d0,
       openSession search accepts [] dbs = Some d0
       ∧ sessionState d0 = Open
       ∧ currentIndex (ui_view d0) = InvalidIndex
       ∧ run search accepts [MenuTriggered a] d0 = inl NullPointerDereference).
Proof.
  intros Hfield. rewrite (triggered_copy _ _ Hfield). split; [|split; [|split]].
  - rewrite copyAction_run. destruct (currentMatch (ui_view d)).1; split; done.
  - intros Hinv. rewrite copyAction_run, (currentMatch_invalid _ Hinv). done.
  - intros Hnone. unfold customContextMenuRequested.
    unfold mbind, Slot_bind, get. by rewrite Hnone.
  - intros dbs. eexists. split; [apply openSession_empty|].
    split; [done|]. split; [done|].
    rewrite run_cons_open by done.
    unfold deliver. rewrite (triggered_copy _ _ Hfield).
    unfold mbind, Slot_bind. by rewrite copyAction_run.
Qed.

(** *** Navigation *)

Lemma indexOf_spec (rows : list AutoTypeMatch) (r : Z) :
  indexOf rows r = if bool_decide (0 <= r < Z.of_nat (length rows))
                   then Index r else InvalidIndex.
Proof.
  unfold indexOf. case_bool_decide as Hr.
  - destruct Hr as [H0 H1].
    by rewrite (proj2 (Z.leb_le _ _) H0), (proj2 (Z.ltb_lt _ _) H1).
  - destruct (0 <=? r) eqn:H0; [|done]. destruct (r <? _) eqn:H1; [|done].
    exfalso. apply Hr. split; [by apply Z.leb_le | by apply Z.ltb_lt].
Qed.

(** C9: with the current index invalid or inside the displayed list,
    [moveSelectionUp] and [moveSelectionDown] return, leave the displayed
    list alone and keep the index invalid or inside the list.  Up moves from
    row r to row r-1 when r > 0, down from row r to row r+1 when that row
    exists; at the first row (up), at the last row (down), without a
    selection and on an empty list the dialog is left exactly as it was. *)
Theorem moveSelection_in_range (d : Dialog) :
  menuBuilt d ->
  indexInRange d ->
  (exists d',
     moveSelectionUp d = inr (tt, d')
     ∧ displayed (ui_view d') = displayed (ui_view d)
     ∧ indexInRange d'
     ∧ (displayed (ui_view d) = [] -> d' = d)
     ∧ match currentIndex (ui_view d) with
       | InvalidIndex => d' = d
       | Index r =>
           if r =? 0 then d' = d
           else currentIndex (ui_view d') = Index (r - 1)
       end)
  ∧ (exists d',
       moveSelectionDown d = inr (tt, d')
       ∧ displayed (ui_view d') = displayed (ui_view d)
       ∧ indexInRange d'
       ∧ (displayed (ui_view d) = [] -> d' = d)
       ∧ match currentIndex (ui_view d) with
         | InvalidIndex => d' = d
         | Index r =>
             if r =? Z.of_nat (length (displayed (ui_view d))) - 1 then d' = d
             else currentIndex (ui_view d') = Index (r + 1)
         end).
Proof.
  intros Hbuilt Hrange. unfold indexInRange in Hrange. split.
  - unfold moveSelectionUp. unfold mbind at 1, Slot_bind, get. unfold sibling.
    destruct (currentIndex (ui_view d)) as [|r] eqn:Hcur.
    + exists d. simpl. unfold indexInRange. rewrite Hcur. by repeat split.
    + cbn [row]. rewrite indexOf_spec. case_bool_decide as Hprev; cbn [isValid].
      * destruct (view_setCurrentIndex_built (Index (r - 1)) d Hbuilt)
          as (acts & en & Hrun & _).
        eexists. split; [exact Hrun|]. split; [done|]. split; [|split].
        -- unfold indexInRange. simpl. lia.
        -- intros Hnil. rewrite Hnil in Hrange. simpl in Hrange. lia.
        -- destruct (Z.eqb_spec r 0); [lia|done].
      * exists d. split; [done|]. split; [done|]. split; [|split; [done|]].
        -- unfold indexInRange. by rewrite Hcur.
        -- destruct (Z.eqb_spec r 0); [done|lia].
  - unfold moveSelectionDown. unfold mbind at 1, Slot_bind, get. unfold sibling.
    destruct (currentIndex (ui_view d)) as [|r] eqn:Hcur.
    + exists d. simpl. unfold indexInRange. rewrite Hcur. by repeat split.
    + cbn [row]. rewrite indexOf_spec. case_bool_decide as Hnext; cbn [isValid].
      * destruct (view_setCurrentIndex_built (Index (r + 1)) d Hbuilt)
          as (acts & en & Hrun & _).
        eexists. split; [exact Hrun|]. split; [done|]. split; [|split].
        -- unfold indexInRange. simpl. lia.
        -- intros Hnil. rewrite Hnil in Hrange. simpl in Hrange. lia.
        -- destruct (Z.eqb_spec r (Z.of_nat (length (displayed (ui_view d))) - 1));
             [lia|done].
      * exists d. split; [done|]. split; [done|]. split; [|split; [done|]].
        -- unfold indexInRange. by rewrite Hcur.
        -- destruct (Z.eqb_spec r (Z.of_nat (length (displayed (ui_view d))) - 1));
             [done|lia].
Qed.

(** *** Slots that neither close the dialog nor emit *)

Lemma silent_bind {A B} (c : Slot A) (k : A -> Slot B) :
  silent c -> (forall a, silent (k a)) -> silent (c ≫= k).
Proof.
  intros Hc Hk d b d2 Hrun.
  apply bind_returns in Hrun as (a & d1 & Hrun1 & Hrun2).
  rewrite (Hk _ _ _ _ Hrun2). by apply (Hc _ _ _ Hrun1).
Qed.

Lemma silent_ret {A} (a : A) : silent (mret a : Slot A).
Proof. intros d a' d' [= _ <-]. done. Qed.

Lemma silent_skip : silent (skip : Slot unit).
Proof. apply silent_ret. Qed.

Lemma silent_get : silent (get : Slot Dialog).
Proof. intros d a' d' [= _ <-]. done. Qed.

Lemma silent_fault {A} (e : Fault) : silent (fault e : Slot A).
Proof. intros d a d' [=]. Qed.

Lemma silent_modify (f : Dialog -> Dialog) :
  (forall d, observed (f d) = observed d) -> silent (modify f).
Proof. intros Hf d a d' [= _ <-]. apply Hf. Qed.

Lemma silent_updateActionMenu (m : AutoTypeMatch) :
  silent (updateActionMenu m : Slot unit).
Proof.
  intros d u d' Hrun.
  apply updateActionMenu_returns in Hrun as (acts & en & ->). done.
Qed.

Ltac silent_step :=
  first
    [ apply silent_skip | apply silent_get | apply silent_ret | apply silent_fault
    | apply silent_updateActionMenu
    | apply silent_modify; intros ?; reflexivity
    | apply silent_bind; [|intros ?]
    | match goal with
      | |- silent (if ?b then _ else _) => destruct b
      | |- silent (match ?x with _ => _ end) => destruct x
      end ].

Lemma silent_currentMatchChanged : silent (currentMatchChanged : Slot unit).
Proof. unfold currentMatchChanged. repeat silent_step. Qed.

Lemma silent_view_setMatchList (ms : list AutoTypeMatch) :
  silent (view_setMatchList ms : Slot unit).
Proof.
  unfold view_setMatchList. repeat silent_step.
Qed.

Lemma silent_view_filterList (text : string) :
  silent (view_filterList accepts text : Slot unit).
Proof.
  unfold view_filterList. repeat silent_step.
Qed.

Lemma silent_view_setCurrentIndex (i : QModelIndex) :
  silent (view_setCurrentIndex i : Slot unit).
Proof.
  unfold view_setCurrentIndex. repeat silent_step.
Qed.

Lemma silent_performSearch : silent (performSearch search accepts).
Proof.
  unfold performSearch. apply silent_bind; [apply silent_get | intros d].
  destruct (ui_filterRadio d); [apply silent_view_filterList|].
  destruct (isEmpty (ui_search d)); apply silent_view_setMatchList.
Qed.

Lemma silent_moveSelectionUp : silent (moveSelectionUp : Slot unit).
Proof.
  unfold moveSelectionUp. apply silent_bind; [apply silent_get | intros d].
  destruct (isValid _); [apply silent_view_setCurrentIndex | apply silent_skip].
Qed.

Lemma silent_moveSelectionDown : silent (moveSelectionDown : Slot unit).
Proof.
  unfold moveSelectionDown. apply silent_bind; [apply silent_get | intros d].
  destruct (isValid _); [apply silent_view_setCurrentIndex | apply silent_skip].
Qed.

Lemma silent_filterRadio_toggled (checked : bool) :
  silent (filterRadio_toggled search accepts checked).
Proof.
  unfold filterRadio_toggled. destruct checked; [|apply silent_skip].
  apply silent_bind; [apply silent_get | intros d].
  apply silent_bind; [apply silent_view_setMatchList | intros _].
  apply silent_performSearch.
Qed.

Lemma silent_searchRadio_toggled (checked : bool) :
  silent (searchRadio_toggled search accepts checked).
Proof.
  unfold searchRadio_toggled.
  destruct checked; [apply silent_performSearch | apply silent_skip].
Qed.

Lemma silent_filterRadio_setChecked : silent (filterRadio_setChecked search accepts).
Proof.
  unfold filterRadio_setChecked. apply silent_bind; [apply silent_get | intros d].
  destruct (ui_filterRadio d); [apply silent_skip|].
  apply silent_bind; [silent_step | intros _].
  apply silent_bind; [|intros _; apply silent_filterRadio_toggled].
  destruct (ui_searchRadio d); [|apply silent_skip].
  apply silent_bind; [silent_step | intros _; apply silent_searchRadio_toggled].
Qed.

Lemma silent_searchRadio_setChecked : silent (searchRadio_setChecked search accepts).
Proof.
  unfold searchRadio_setChecked. apply silent_bind; [apply silent_get | intros d].
  destruct (ui_searchRadio d); [apply silent_skip|].
  apply silent_bind; [silent_step | intros _].
  apply silent_bind; [|intros _; apply silent_searchRadio_toggled].
  destruct (ui_filterRadio d); [|apply silent_skip].
  apply silent_bind; [silent_step | intros _; apply silent_filterRadio_toggled].
Qed.

Lemma silent_search_setText (t : string) : silent (search_setText t : Slot unit).
Proof. unfold search_setText, m_searchTimer_start. repeat silent_step. Qed.

(** *** Sessions *)


Lemma emitted_counts (d d' : Dialog) (sigs : list Signal) :
  emitted d' = emitted d ++ sigs ->
  matchActivatedCount d'
  = (matchActivatedCount d + length (List.filter isMatchActivated sigs))%nat
  ∧ rejectedCount d'
    = (rejectedCount d + length (List.filter isRejected sigs))%nat.
Proof.
  intros Hsigs. unfold matchActivatedCount at 1, rejectedCount at 1. rewrite Hsigs.
  by rewrite matchActivatedCount_app, rejectedCount_app.
Qed.











(** *** Activation without a selection *)

Lemma activateCurrentMatch_invalid (d : Dialog) :
  currentIndex (ui_view d) = InvalidIndex ->
  activateCurrentMatch d
  = inr (tt, set_emitted
               (emitted d ++ [finished Accepted; accepted; matchActivated nullMatch])
               (set_accepted true (set_result Accepted (set_visible false d)))).
Proof.
  intros Hinv. unfold activateCurrentMatch. unfold mbind, Slot_bind, get.
  by rewrite (currentMatch_invalid _ Hinv), submitAutoTypeMatch_run.
Qed.

End SlotFacts.

(** ** The sample sessions *)

Example emptySession_opened :
  openSession prefixSearch prefixAccepts [] [storeA] = Some emptySession.
Proof. vm_compute. reflexivity. Qed.

Example mailSession_opened :
  openSession prefixSearch prefixAccepts
    [(Some mail, effectiveAutoTypeSequence mail)] [storeA] = Some mailSession
  ∧ currentMatch (ui_view mailSession) = (Some mail, effectiveAutoTypeSequence mail)
  ∧ mode mailSession = Filter.
Proof. vm_compute. repeat split. Qed.

Example searchedSession_displays_mail :
  displayed (ui_view searchedSession) = [(Some mail, "{USERNAME}{TAB}{PASSWORD}{ENTER}")]
  ∧ mode searchedSession = Search
  ∧ ui_action searchedSession = true
  ∧ m_actionMenu searchedSession = [true; false; false; true; false; false].
Proof. vm_compute. repeat split. Qed.

(** The dedup example of the specification: default and two associations,
    one of them repeating the default, give two matches, the default first. *)
Example collectMatches_bank :
  collectMatches prefixSearch "Ba" [storeA]
  = [(Some bank, "{USERNAME}{ENTER}"); (Some bank, "{TOTP}")].
Proof. vm_compute. reflexivity. Qed.

(** C1: in the session opened without candidates nothing is displayed and
    nothing is selected, yet pressing enter in the search field closes it as
    accepted and emits [matchActivated] carrying the null match. *)
Theorem activate_without_selection :
  sessionState emptySession = Open
  ∧ displayed (ui_view emptySession) = []
  ∧ currentIndex (ui_view emptySession) = InvalidIndex
  ∧ exists d,
      run prefixSearch prefixAccepts [ReturnPressed] emptySession = inr (tt, d)
      ∧ sessionState d = Closed Accepted
      ∧ m_accepted d = true
      ∧ emitted d = [finished Accepted; accepted; matchActivated nullMatch].
Proof.
  split; [reflexivity|]. split; [reflexivity|]. split; [reflexivity|].
  eexists. split; [vm_compute; reflexivity|]. repeat split.
Qed.

(** C2, the claim as stated fails: after the selection has become empty the
    action button is disabled, but the username actions enabled for the
    previously selected entry are still enabled. *)
Lemma empty_selection_keeps_actions :
  exists d,
    updateActionMenu nullMatch mailSession = inr (tt, d)
    ∧ ui_action d = false
    ∧ actionEnabled typeUsernameAction d = true
    ∧ ¬ (forall a, actionEnabled a d = false).
Proof.
  eexists. split; [reflexivity|]. split; [reflexivity|]. split; [reflexivity|].
  intros Hall. specialize (Hall typeUsernameAction). discriminate.
Qed.

Lemma updateActionMenu_enablement_witness :
  menuBuilt mailSession
  ∧ exists d',
      updateActionMenu (Some mail, "{USERNAME}") mailSession = inr (tt, d')
      ∧ ui_action d' = true
      ∧ actionEnabled typeUsernameAction d' = true
      ∧ actionEnabled copyUsernameAction d' = true
      ∧ actionEnabled typePasswordAction d' = false
      ∧ actionEnabled copyPasswordAction d' = false
      ∧ actionEnabled typeTotpAction d' = false
      ∧ actionEnabled copyTotpAction d' = false.
Proof.
  assert (menuBuilt mailSession) as Hbuilt by (unfold menuBuilt; simpl; lia).
  split; [exact Hbuilt|].
  exact (updateActionMenu_enablement (Some mail, "{USERNAME}") mailSession Hbuilt).
Defined.



Lemma performSearch_search_mode_witness :
  menuBuilt (set_search "Ba" emptySession)
  ∧ mode (set_search "Ba" emptySession) = Search
  ∧ exists d',
      performSearch prefixSearch prefixAccepts (set_search "Ba" emptySession)
      = inr (tt, d')
      ∧ displayed (ui_view d')
        = if isEmpty (ui_search (set_search "Ba" emptySession)) then []
          else collectSpec prefixSearch (ui_search (set_search "Ba" emptySession))
                 (m_dbs (set_search "Ba" emptySession)).
Proof.
  assert (menuBuilt (set_search "Ba" emptySession)) as Hbuilt
    by (unfold menuBuilt; simpl; lia).
  split; [exact Hbuilt|]. split; [reflexivity|].
  exact (proj1 (performSearch_search_mode prefixSearch prefixAccepts
                  (set_search "Ba" emptySession) Hbuilt eq_refl)).
Defined.

Lemma setMatches_mode_witness :
  menuBuilt (constructed (Group := list Entry))
  ∧ ui_filterRadio (constructed (Group := list Entry))
    && ui_searchRadio (constructed (Group := list Entry)) = false
  ∧ (exists d',
       setMatches prefixSearch prefixAccepts [(Some mail, "{USERNAME}")] [storeA]
         constructed = inr (tt, d')
       ∧ m_matches d' = [(Some mail, "{USERNAME}")]
       ∧ mode d' = Filter)
  ∧ (exists d',
       setMatches prefixSearch prefixAccepts [] [storeA] constructed = inr (tt, d')
       ∧ m_matches d' = []
       ∧ mode d' = Search).
Proof.
  assert (menuBuilt (constructed (Group := list Entry))) as Hbuilt
    by (unfold menuBuilt; simpl; lia).
  split; [exact Hbuilt|]. split; [reflexivity|]. split.
  - exact (setMatches_mode prefixSearch prefixAccepts [(Some mail, "{USERNAME}")]
             [storeA] constructed Hbuilt eq_refl).
  - exact (setMatches_mode prefixSearch prefixAccepts [] [storeA]
             constructed Hbuilt eq_refl).
Defined.

Lemma mode_switch_recomputes_witness :
  menuBuilt mailSearching
  ∧ ui_filterRadio mailSearching = false
  ∧ menuBuilt (set_search "Ba" mailSession)
  ∧ ui_searchRadio (set_search "Ba" mailSession) = false
  ∧ (exists d',
       filterRadio_setChecked prefixSearch prefixAccepts mailSearching = inr (tt, d')
       ∧ mode d' = Filter
       ∧ displayed (ui_view d') = [(Some mail, effectiveAutoTypeSequence mail)])
  ∧ (exists d',
       searchRadio_setChecked prefixSearch prefixAccepts (set_search "Ba" mailSession)
       = inr (tt, d')
       ∧ mode d' = Search
       ∧ displayed (ui_view d')
         = [(Some bank, "{USERNAME}{ENTER}"); (Some bank, "{TOTP}")]).
Proof.
  assert (menuBuilt mailSearching) as Hbuilt1
    by (unfold menuBuilt; vm_compute; lia).
  assert (menuBuilt (set_search "Ba" mailSession)) as Hbuilt2
    by (unfold menuBuilt; vm_compute; lia).
  split; [exact Hbuilt1|]. split; [reflexivity|].
  split; [exact Hbuilt2|]. split; [reflexivity|]. split.
  - destruct (proj1 (mode_switch_recomputes prefixSearch prefixAccepts
                       mailSearching Hbuilt1) eq_refl)
      as (d' & Hrun & Hmode & _ & _ & Hshown & _).
    exists d'. split; [exact Hrun|]. split; [exact Hmode|].
    rewrite Hshown. vm_compute. reflexivity.
  - destruct (proj2 (mode_switch_recomputes prefixSearch prefixAccepts
                       (set_search "Ba" mailSession) Hbuilt2) eq_refl)
      as (d' & Hrun & Hmode & Hshown & _).
    exists d'. split; [exact Hrun|]. split; [exact Hmode|].
    rewrite Hshown. vm_compute. reflexivity.
Defined.

Lemma escape_key_witness :
  sessionState (set_search "abc" mailSession) = Open
  ∧ sessionState mailSession = Open
  ∧ (exists d',
       eventFilter obj_search (KeyPress Key_Escape) (set_search "abc" mailSession)
       = inr (true, d')
       ∧ ui_search d' = ""
       ∧ sessionState d' = Open
       ∧ emitted d' = [])
  ∧ (exists d',
       eventFilter obj_search (KeyPress Key_Escape) mailSession = inr (true, d')
       ∧ sessionState d' = Closed Rejected
       ∧ emitted d' = [finished Rejected; rejected]
       ∧ m_accepted d' = false).
Proof.
  split; [reflexivity|]. split; [reflexivity|]. split.
  - exact (escape_key (set_search "abc" mailSession) eq_refl).
  - exact (escape_key mailSession eq_refl).
Defined.

Lemma copy_action_rejects_witness :
  copyField copyUsernameAction = Some username
  ∧ (currentMatch (ui_view mailSession)).1 = Some mail
  ∧ exists d',
      triggered copyUsernameAction mailSession = inr (tt, d')
      ∧ clipboardTexts d' = clipboardTexts mailSession ++ ["bob"]
      ∧ sessionState d' = Closed Rejected
      ∧ emitted d' = emitted mailSession ++ [finished Rejected; rejected]
      ∧ matchActivatedCount d' = matchActivatedCount mailSession
      ∧ m_accepted d' = m_accepted mailSession.
Proof.
  split; [reflexivity|]. split; [reflexivity|].
  exact (copy_action_rejects copyUsernameAction username mail mailSession
           eq_refl eq_refl).
Defined.

Lemma moveSelection_in_range_witness :
  menuBuilt bankSession
  ∧ indexInRange bankSession
  ∧ currentIndex (ui_view bankSession) = Index 0
  ∧ (exists d',
       moveSelectionUp bankSession = inr (tt, d')
       ∧ d' = bankSession)
  ∧ (exists d',
       moveSelectionDown bankSession = inr (tt, d')
       ∧ currentIndex (ui_view d') = Index 1
       ∧ indexInRange d').
Proof.
  assert (menuBuilt bankSession) as Hbuilt by (unfold menuBuilt; simpl; lia).
  assert (indexInRange bankSession) as Hrange by (unfold indexInRange; simpl; lia).
  split; [exact Hbuilt|]. split; [exact Hrange|]. split; [reflexivity|].
  destruct (moveSelection_in_range bankSession Hbuilt Hrange)
    as [(u & Hup & _ & _ & _ & Hmoved) (w & Hdown & _ & Hin & _ & Hnext)].
  split.
  - exists u. split; [exact Hup | exact Hmoved].
  - exists w. split; [exact Hdown|]. split; [exact Hnext | exact Hin].
Defined.

Lemma copy_action_unguarded_witness :
  copyField copyPasswordAction = Some password
  ∧ (triggered copyPasswordAction emptySession = inl NullPointerDereference
     <-> (currentMatch (ui_view emptySession)).1 = None)
  ∧ triggered copyPasswordAction emptySession = inl NullPointerDereference
  ∧ customContextMenuRequested emptySession = inr (tt, emptySession).
Proof.
  split; [reflexivity|].
  destruct (copy_action_unguarded prefixSearch prefixAccepts copyPasswordAction
              password emptySession eq_refl) as (Hiff & Hfault & Hguard & _).
  split; [exact Hiff|]. split; [exact (Hfault eq_refl) | exact (Hguard eq_refl)].
Defined.

(** * Further properties *)

(** ** The collector over several stores *)

Section CollectMore.
Context {Group : Type}.
Variable search : string -> Group -> list Entry.

(** X3: the stores are searched one after the other and independently: the
    matches of a concatenated store list are the matches of its parts,
    concatenated.  Nothing is deduplicated across entries or stores. *)
Theorem collectMatches_app (text : string) (dbs1 dbs2 : list (Database Group)) :
  collectMatches search text (dbs1 ++ dbs2)
  = collectMatches search text dbs1 ++ collectMatches search text dbs2.
Proof. rewrite !collectMatches_spec. unfold collectSpec. apply bind_app. Qed.

(** X4: a match is collected exactly when its entry was found in one of the
    stores and its sequence is a non-empty sequence of that entry, the
    default one or an associated one.  No collected match has a null entry
    or an empty sequence. *)
Theorem elem_of_collectMatches (text : string) (dbs : list (Database Group))
    (m : AutoTypeMatch) :
  m ∈ collectMatches search text dbs
  <-> exists db e t,
        db ∈ dbs ∧ e ∈ search text (rootGroup db) ∧ m = (Some e, t) ∧ t ≠ ""
        ∧ (t = effectiveAutoTypeSequence e ∨ t ∈ sequence <$> autoTypeAssociations e).
Proof.
  rewrite collectMatches_spec. unfold collectSpec. rewrite list_elem_of_bind. split.
  - intros (db & Hm & Hdb). apply list_elem_of_bind in Hm as (e & Hm & He).
    unfold matchesOf in Hm. apply list_elem_of_fmap in Hm as (t & -> & Ht).
    apply elem_of_templatesOf in Ht as [Hne Hseq]. by exists db, e, t.
  - intros (db & e & t & Hdb & He & -> & Hne & Hseq).
    exists db. split; [|done]. apply list_elem_of_bind. exists e. split; [|done].
    unfold matchesOf. apply list_elem_of_fmap. exists t. split; [done|].
    by apply elem_of_templatesOf.
Qed.

End CollectMore.

(** ** Slots, one at a time *)

Section SessionFacts.
Context {Group : Type}.
Variable search : string -> Group -> list Entry.
Variable accepts : string -> AutoTypeMatch -> bool.

Local Abbreviation Dialog := (Dialog Group).
Local Abbreviation Slot := (Slot Group).

Lemma triggered_type (a : MenuAction) (placeholder : string) :
  typePlaceholder a = Some placeholder -> @triggered Group a = typeAction placeholder.
Proof. destruct a; simpl; intros [= <-]; reflexivity. Qed.

Lemma typeAction_run (placeholder : string) (d : Dialog) :
  typeAction placeholder d
  = inr (tt, set_emitted
               (emitted d ++ [finished Accepted; accepted;
                              matchActivated ((currentMatch (ui_view d)).1, placeholder)])
               (set_accepted true (set_result Accepted (set_visible false d)))).
Proof.
  unfold typeAction. unfold mbind, Slot_bind, get. apply submitAutoTypeMatch_run.
Qed.

(** X1: a type action closes the session as accepted and emits
    [matchActivated] carrying the entry of the current match with the
    placeholder of the action in place of the match's own sequence; nothing
    goes to the clipboard.  Without a selection the entry carried is null. *)
Theorem type_action_accepts (a : MenuAction) (placeholder : string) (d : Dialog) :
  typePlaceholder a = Some placeholder ->
  exists d',
    triggered a d = inr (tt, d')
    ∧ sessionState d' = Closed Accepted
    ∧ m_accepted d' = true
    ∧ emitted d'
      = emitted d ++ [finished Accepted; accepted;
                      matchActivated ((currentMatch (ui_view d)).1, placeholder)]
    ∧ clipboardTexts d' = clipboardTexts d
    ∧ (currentIndex (ui_view d) = InvalidIndex ->
       last (emitted d') = Some (matchActivated (None, placeholder))).
Proof.
  intros Hp. rewrite (triggered_type _ _ Hp), typeAction_run.
  eexists. split; [reflexivity|]. repeat split.
  intros Hinv. simpl emitted. rewrite (currentMatch_invalid _ Hinv).
  rewrite last_app. reflexivity.
Qed.

Lemma closeEvent_form (d : Dialog) :
  closeEvent d
  = inr (tt,
         let d1 := if m_accepted d then d
                   else set_emitted (emitted d ++ [rejected]) d in
         if visible d
         then set_emitted (emitted d1 ++ [finished Rejected; rejected])
                (set_result Rejected (set_visible false d1))
         else d1).
Proof.
  unfold closeEvent, QDialog_closeEvent. unfold mbind, Slot_bind, get.
  destruct (m_accepted d); simpl.
  - destruct (visible d); [apply reject_run | done].
  - destruct (visible d) eqn:Hv; simpl; [by rewrite reject_run | done].
Qed.

(** X14: once a match has been submitted a close event changes nothing and
    emits nothing; after a rejection it would emit [rejected] once more, the
    guard of [closeEvent] being [m_accepted] alone. *)
Theorem closeEvent_after_closing (m : AutoTypeMatch) (d : Dialog) :
  m_accepted d = false ->
  (submitAutoTypeMatch m ;; closeEvent) d = submitAutoTypeMatch m d
  ∧ (reject ;; closeEvent) d
    = inr (tt, set_emitted (emitted d ++ [finished Rejected; rejected; rejected])
                 (set_result Rejected (set_visible false d))).
Proof.
  intros Hacc. split.
  - rewrite (bind_inr _ _ _ _ _ (submitAutoTypeMatch_run m d)).
    rewrite closeEvent_form. simpl. by rewrite submitAutoTypeMatch_run.
  - rewrite (bind_inr _ _ _ _ _ (reject_run d)).
    rewrite closeEvent_form. simpl. rewrite Hacc. simpl.
    by rewrite <- app_assoc.
Qed.

(** ** What every slot carries over *)

Lemma search_setText_run (t : string) (d : Dialog) :
  search_setText t d
  = inr (tt, if bool_decide (ui_search d = t) then d
             else set_searchTimer true (set_search t d)).
Proof.
  unfold search_setText, m_searchTimer_start. unfold_slot. by case_bool_decide.
Qed.

Lemma indexOf_inRange (rows : list AutoTypeMatch) (r : Z) :
  match indexOf rows r with
  | InvalidIndex => True
  | Index r' => r' = r ∧ 0 <= r < Z.of_nat (length rows)
  end.
Proof. rewrite indexOf_spec. by case_bool_decide. Qed.

Lemma sibling_Index (v : AutoTypeMatchView) (i : QModelIndex) (r c r' : Z) :
  sibling v i r c = Index r' ->
  r' = r ∧ 0 <= r < Z.of_nat (length (displayed v)) ∧ isValid i = true.
Proof.
  unfold sibling. destruct i as [|r0]; [discriminate|]. intros Hidx.
  pose proof (indexOf_inRange (displayed v) r) as Hr. rewrite Hidx in Hr.
  by destruct Hr.
Qed.

Lemma carriedOver_refl (d : Dialog) : menuBuilt d -> carriedOver d d.
Proof. intros Hbuilt. by repeat split. Qed.

Lemma carriedOver_trans (d1 d2 d3 : Dialog) :
  carriedOver d1 d2 -> carriedOver d2 d3 -> carriedOver d1 d3.
Proof.
  intros (_ & Hd & Hm & Hi & He & Hf) (Hb & Hd' & Hm' & Hi' & He' & Hf').
  split; [done|]. split; [congruence|]. split; [congruence|]. repeat split; auto.
Qed.

(** A state that differs neither in the view, the menu, the radio buttons
    nor the caller's lists. *)
Lemma carriedOver_same (d d' : Dialog) :
  menuBuilt d ->
  ui_view d' = ui_view d -> m_actionMenu d' = m_actionMenu d ->
  ui_filterRadio d' = ui_filterRadio d -> ui_searchRadio d' = ui_searchRadio d ->
  m_dbs d' = m_dbs d -> m_matches d' = m_matches d ->
  carriedOver d d'.
Proof.
  intros Hbuilt Hv Hm Hf Hs Hd Hms.
  unfold carriedOver, menuBuilt, indexInRange, exclusive, filterOriginal in *.
  rewrite Hv, Hm, Hf, Hs, Hd, Hms. by repeat split.
Qed.

(** A state that differs in the view and in the enablement of the menu. *)
Lemma carriedOver_view (d : Dialog) (v : AutoTypeMatchView) (acts : list bool)
    (en : bool) :
  menuBuilt d ->
  length acts = length (m_actionMenu d) ->
  match currentIndex v with
  | InvalidIndex => True
  | Index r => 0 <= r < Z.of_nat (length (displayed v))
  end ->
  (ui_filterRadio d = true -> matchList v = matchList (ui_view d)) ->
  carriedOver d (set_actionMenu acts (set_action en (set_view v d))).
Proof.
  intros Hbuilt Hlen Hrange Hlist.
  unfold carriedOver, menuBuilt, indexInRange, exclusive, filterOriginal in *.
  simpl. rewrite Hlen. repeat split; try done.
  intros Horig Hfilter. rewrite (Hlist Hfilter). by apply Horig.
Qed.

Lemma searchedView_inRange (d : Dialog) :
  match currentIndex (searchedView search accepts d) with
  | InvalidIndex => True
  | Index r => 0 <= r < Z.of_nat (length (displayed (searchedView search accepts d)))
  end.
Proof.
  unfold searchedView.
  destruct (ui_filterRadio d); [|destruct (isEmpty (ui_search d))]; simpl;
    try done;
    match goal with |- context [indexOf ?rows 0] =>
      pose proof (indexOf_inRange rows 0) as Hr; destruct (indexOf rows 0) end;
    naive_solver.
Qed.

Lemma performSearch_carriedOver (d : Dialog) :
  menuBuilt d ->
  exists d',
    performSearch search accepts d = inr (tt, d')
    ∧ carriedOver d d'
    ∧ untouched d' = untouched d
    ∧ ui_filterRadio d' = ui_filterRadio d ∧ ui_searchRadio d' = ui_searchRadio d
    ∧ ui_view d' = searchedView search accepts d
    ∧ ui_search d' = ui_search d ∧ m_searchTimer d' = m_searchTimer d.
Proof.
  intros Hbuilt. destruct (performSearch_built search accepts d Hbuilt)
    as (acts & en & Hrun & Hlen).
  eexists. split; [exact Hrun|]. split; [|by repeat split].
  apply carriedOver_view; [done | done | apply searchedView_inRange |].
  intros Hfilter. unfold searchedView. by rewrite Hfilter.
Qed.

Lemma moveSelectionUp_form (d : Dialog) :
  menuBuilt d ->
  exists d',
    moveSelectionUp d = inr (tt, d')
    ∧ match sibling (ui_view d) (currentIndex (ui_view d))
              (row (currentIndex (ui_view d)) - 1) 0 with
      | InvalidIndex => d' = d
      | Index r =>
          exists acts en,
            d' = set_actionMenu acts
                   (set_action en (set_view (View_setCurrentIndex (Index r) (ui_view d)) d))
            ∧ length acts = length (m_actionMenu d)
      end.
Proof.
  intros Hbuilt. unfold moveSelectionUp. unfold mbind at 1, Slot_bind, get.
  destruct (sibling _ _ _ _) as [|r]; simpl isValid; cbv iota.
  - by exists d.
  - destruct (view_setCurrentIndex_built (Index r) d Hbuilt) as (acts & en & Hrun & Hlen).
    eexists. split; [exact Hrun|]. by exists acts, en.
Qed.

Lemma moveSelectionDown_form (d : Dialog) :
  menuBuilt d ->
  exists d',
    moveSelectionDown d = inr (tt, d')
    ∧ match sibling (ui_view d) (currentIndex (ui_view d))
              (row (currentIndex (ui_view d)) + 1) 0 with
      | InvalidIndex => d' = d
      | Index r =>
          exists acts en,
            d' = set_actionMenu acts
                   (set_action en (set_view (View_setCurrentIndex (Index r) (ui_view d)) d))
            ∧ length acts = length (m_actionMenu d)
      end.
Proof.
  intros Hbuilt. unfold moveSelectionDown. unfold mbind at 1, Slot_bind, get.
  destruct (sibling _ _ _ _) as [|r]; simpl isValid; cbv iota.
  - by exists d.
  - destruct (view_setCurrentIndex_built (Index r) d Hbuilt) as (acts & en & Hrun & Hlen).
    eexists. split; [exact Hrun|]. by exists acts, en.
Qed.

(** A move of the selection changes the current index and the enablement of
    the menu, nothing else. *)
Lemma moved_carriedOver (d d' : Dialog) (r0 : Z) :
  menuBuilt d ->
  match sibling (ui_view d) (currentIndex (ui_view d)) r0 0 with
  | InvalidIndex => d' = d
  | Index r =>
      exists acts en,
        d' = set_actionMenu acts
               (set_action en (set_view (View_setCurrentIndex (Index r) (ui_view d)) d))
        ∧ length acts = length (m_actionMenu d)
  end ->
  carriedOver d d'
  ∧ untouched d' = untouched d
  ∧ ui_filterRadio d' = ui_filterRadio d ∧ ui_searchRadio d' = ui_searchRadio d.
Proof.
  intros Hbuilt Hform.
  destruct (sibling _ _ _ _) as [|r] eqn:Hsib.
  - subst d'. split; [by apply carriedOver_refl | done].
  - destruct Hform as (acts & en & -> & Hlen).
    apply sibling_Index in Hsib as (-> & Hr & _).
    split; [|done]. apply carriedOver_view; [done | done | | done].
    simpl. exact Hr.
Qed.

Lemma filterRadio_setChecked_carriedOver (d : Dialog) :
  menuBuilt d ->
  exists d',
    filterRadio_setChecked search accepts d = inr (tt, d')
    ∧ carriedOver d d'
    ∧ untouched d' = untouched d
    ∧ ui_filterRadio d' = true.
Proof.
  intros Hbuilt. destruct (ui_filterRadio d) eqn:Hfilter.
  - exists d. unfold filterRadio_setChecked. unfold mbind, Slot_bind, get.
    rewrite Hfilter. split; [done|]. split; [by apply carriedOver_refl | done].
  - destruct (filterRadio_setChecked_switch search accepts d Hbuilt Hfilter)
      as (acts & en & Hrun & Hlen).
    eexists. split; [exact Hrun|]. split; [|done].
    unfold carriedOver, menuBuilt, indexInRange, exclusive, filterOriginal in *.
    simpl. rewrite Hlen. repeat split; try done.
    intros _.
    pose proof (indexOf_inRange (filtered accepts (ui_search d) (m_matches d)) 0) as Hr.
    destruct (indexOf _ 0); naive_solver.
Qed.

Lemma searchRadio_setChecked_carriedOver (d : Dialog) :
  menuBuilt d ->
  exists d',
    searchRadio_setChecked search accepts d = inr (tt, d')
    ∧ carriedOver d d'
    ∧ untouched d' = untouched d
    ∧ ui_searchRadio d' = true.
Proof.
  intros Hbuilt. destruct (ui_searchRadio d) eqn:Hsearch.
  - exists d. unfold searchRadio_setChecked. unfold mbind, Slot_bind, get.
    rewrite Hsearch. split; [done|]. split; [by apply carriedOver_refl | done].
  - destruct (searchRadio_setChecked_switch search accepts d Hbuilt Hsearch)
      as (acts & en & Hrun & Hlen).
    eexists. split; [exact Hrun|]. split; [|done].
    unfold carriedOver, menuBuilt, indexInRange, exclusive, filterOriginal in *.
    simpl. rewrite Hlen. repeat split; try done.
    intros _.
    match goal with |- context [indexOf ?rows 0] =>
      pose proof (indexOf_inRange rows 0) as Hr; destruct (indexOf rows 0) end;
      naive_solver.
Qed.

Lemma eventFilter_escape_run (d : Dialog) :
  eventFilter obj_search (KeyPress Key_Escape) d
  = inr (true,
         if isEmpty (ui_search d)
         then set_emitted (emitted d ++ [finished Rejected; rejected])
                (set_result Rejected (set_visible false d))
         else set_searchTimer true (set_search "" d)).
Proof.
  unfold eventFilter. unfold mbind at 1, Slot_bind, get.
  destruct (isEmpty (ui_search d)) eqn:Hempty.
  - by rewrite (bind_inr _ _ _ _ _ (reject_run d)).
  - unfold search_clear. rewrite (bind_inr _ _ _ _ _ (search_setText_run "" d)).
    apply isEmpty_false in Hempty. by rewrite (bool_decide_eq_false_2 _ Hempty).
Qed.

(** A closing slot leaves the view, the menu, the radio buttons and the
    caller's lists alone. *)
Lemma stepped_closed (ev : UserEvent) (d d' : Dialog) :
  menuBuilt d ->
  ui_view d' = ui_view d -> m_actionMenu d' = m_actionMenu d ->
  ui_filterRadio d' = ui_filterRadio d -> ui_searchRadio d' = ui_searchRadio d ->
  m_dbs d' = m_dbs d -> m_matches d' = m_matches d ->
  visible d' = false ->
  clipboardTexts d' = clipboardTexts d ∨ copied ev d d' ->
  stepped ev d d'.
Proof.
  intros Hbuilt Hv Hm Hf Hs Hd Hms Hvis Hclip.
  split; [by apply carriedOver_same|]. split; [congruence|]. split; [done|]. done.
Qed.

(** A slot that neither closes nor copies. *)
Lemma stepped_quiet (ev : UserEvent) (d d' : Dialog) :
  carriedOver d d' ->
  untouched d' = untouched d ->
  ui_filterRadio d' = ui_filterRadio d ∧ ui_searchRadio d' = ui_searchRadio d ->
  stepped ev d d'.
Proof.
  intros Hc Hu Hr. split; [done|]. split; [done|]. split; [done|].
  left. unfold untouched in Hu. congruence.
Qed.

(** With the six actions in the menu every event is handled, leaving a
    state as [stepped] describes, except a copy action triggered while the
    current match has no entry, which dereferences the null pointer. *)
Lemma deliver_stepped (ev : UserEvent) (d : Dialog) :
  menuBuilt d ->
  (exists d', deliver search accepts ev d = inr (tt, d') ∧ stepped ev d d')
  ∨ (deliver search accepts ev d = inl NullPointerDereference ∧ copyOfNothing ev d).
Proof.
  intros Hbuilt. destruct ev as [t| | |k|k| | |m| | | |a|]; simpl deliver.
  - left. rewrite search_setText_run. eexists. split; [reflexivity|].
    case_bool_decide.
    + apply stepped_quiet; [by apply carriedOver_refl | done | done].
    + apply stepped_quiet; [by apply carriedOver_same | done | done].
  - left. unfold mbind at 1, Slot_bind, get. destruct (m_searchTimer d) eqn:Htimer.
    + destruct (performSearch_carriedOver (set_searchTimer false d) Hbuilt)
        as (d' & Hrun & Hc & Hu & Hf & Hs & _).
      exists d'. split; [exact Hrun|].
      apply stepped_quiet; [|done|done].
      apply (carriedOver_trans _ (set_searchTimer false d)); [|done].
      by apply carriedOver_same.
    + exists d. split; [done|].
      apply stepped_quiet; [by apply carriedOver_refl | done | done].
  - left. unfold activateCurrentMatch. unfold mbind, Slot_bind, get.
    rewrite submitAutoTypeMatch_run. eexists. split; [reflexivity|].
    apply stepped_closed; try done. by left.
  - left. destruct k; simpl eventFilter.
    + destruct (moveSelectionUp_form d Hbuilt) as (d' & Hrun & Hform).
      exists d'. split; [by rewrite (bind_inr _ _ _ _ _ (bind_inr _ _ _ _ _ Hrun))|].
      destruct (moved_carriedOver _ _ _ Hbuilt Hform) as (Hc & Hu & Hr).
      by apply stepped_quiet.
    + destruct (moveSelectionDown_form d Hbuilt) as (d' & Hrun & Hform).
      exists d'. split; [by rewrite (bind_inr _ _ _ _ _ (bind_inr _ _ _ _ _ Hrun))|].
      destruct (moved_carriedOver _ _ _ Hbuilt Hform) as (Hc & Hu & Hr).
      by apply stepped_quiet.
    + rewrite (bind_inr _ _ _ _ _ (eventFilter_escape_run d)).
      eexists. split; [reflexivity|].
      destruct (isEmpty (ui_search d)).
      * apply stepped_closed; try done. by left.
      * apply stepped_quiet; [by apply carriedOver_same | done | done].
    + exists d. split; [done|].
      apply stepped_quiet; [by apply carriedOver_refl | done | done].
  - left. destruct k; simpl eventFilter;
      try (exists d; split; [done|];
           apply stepped_quiet; [by apply carriedOver_refl | done | done]).
    exists (set_menuShown true d). split; [done|].
    apply stepped_quiet; [by apply carriedOver_same | done | done].
  - left. unfold activateCurrentMatch. unfold mbind, Slot_bind, get.
    rewrite submitAutoTypeMatch_run. eexists. split; [reflexivity|].
    apply stepped_closed; try done. by left.
  - left. rewrite reject_run. eexists. split; [reflexivity|].
    apply stepped_closed; try done. by left.
  - left. rewrite submitAutoTypeMatch_run. eexists. split; [reflexivity|].
    apply stepped_closed; try done. by left.
  - left. destruct (filterRadio_setChecked_carriedOver d Hbuilt)
      as (d' & Hrun & Hc & Hu & _).
    exists d'. split; [exact Hrun|]. split; [done|]. split; [done|].
    split; [discriminate|]. left. unfold untouched in Hu. congruence.
  - left. destruct (searchRadio_setChecked_carriedOver d Hbuilt)
      as (d' & Hrun & Hc & Hu & _).
    exists d'. split; [exact Hrun|]. split; [done|]. split; [done|].
    split; [discriminate|]. left. unfold untouched in Hu. congruence.
  - left. unfold customContextMenuRequested. unfold mbind, Slot_bind, get.
    destruct (currentMatch (ui_view d)).1.
    + exists (set_menuShown true d). split; [done|].
      apply stepped_quiet; [by apply carriedOver_same | done | done].
    + exists d. split; [done|].
      apply stepped_quiet; [by apply carriedOver_refl | done | done].
  - destruct (copyField a) as [field|] eqn:Hfield.
    + rewrite (triggered_copy _ _ Hfield), copyAction_run.
      destruct (currentMatch (ui_view d)).1 as [e|] eqn:Hsel.
      * left. eexists. split; [reflexivity|].
        apply stepped_closed; try done. right.
        exists a, field, e. by repeat split.
      * right. split; [done|]. by exists a, field.
    + left. destruct (typePlaceholder a) as [placeholder|] eqn:Hp;
        [|by destruct a].
      rewrite (triggered_type _ _ Hp), typeAction_run.
      eexists. split; [reflexivity|].
      apply stepped_closed; try done. by left.
  - left. rewrite closeEvent_form. eexists. split; [reflexivity|].
    destruct (m_accepted d), (visible d) eqn:Hv; simpl;
      (apply stepped_closed; [done..| by left]).
Qed.

(** ** Whole sessions *)

Lemma run_nil (d : Dialog) : run search accepts [] d = inr (tt, d).
Proof. reflexivity. Qed.

(** A run of events returns, carrying over what [carriedOver] names and,
    while the dialog stays open, what [untouched] names, or stops at a copy
    action without an entry.  Induction on the events. *)
Lemma run_stepped (evs : list UserEvent) :
  forall d : Dialog,
    menuBuilt d ->
    (exists d',
       run search accepts evs d = inr (tt, d')
       ∧ carriedOver d d'
       ∧ (visible d' = true -> untouched d' = untouched d))
    ∨ run search accepts evs d = inl NullPointerDereference.
Proof.
  induction evs as [|ev evs IH]; intros d Hbuilt.
  - left. exists d. split; [done|]. split; [by apply carriedOver_refl | done].
  - destruct (visible d) eqn:Hvis.
    + rewrite run_cons_open by done.
      destruct (deliver_stepped ev d Hbuilt) as [(d1 & Hrun1 & Hc1 & Hu1 & _)|[Hfault _]].
      * rewrite (bind_inr _ _ _ _ _ Hrun1).
        destruct (IH d1 (proj1 Hc1)) as [(d' & Hrun & Hc & Hu)|Hfault]; [|by right].
        left. exists d'. split; [done|].
        split; [by apply (carriedOver_trans _ d1)|].
        intros Hopen. specialize (Hu Hopen). rewrite Hu. apply Hu1.
        unfold untouched in Hu. congruence.
      * right. unfold mbind, Slot_bind. by rewrite Hfault.
    + left. exists d. rewrite run_cons_closed by done.
      split; [done|]. split; [by apply carriedOver_refl | done].
Qed.

(** X5: once the menu has its six actions the assertion of
    [updateActionMenu] never fails: every event is handled and leaves the six
    actions in place, the one exception being a copy action triggered while
    the current match has no entry, which dereferences the null pointer; a
    run of events returns or stops at such a copy action. *)
Theorem session_faults_only_on_copy (ev : UserEvent) (evs : list UserEvent)
    (d : Dialog) :
  menuBuilt d ->
  ((exists d', deliver search accepts ev d = inr (tt, d') ∧ menuBuilt d')
   ∨ (deliver search accepts ev d = inl NullPointerDereference ∧ copyOfNothing ev d))
  ∧ ((exists d', run search accepts evs d = inr (tt, d') ∧ menuBuilt d')
     ∨ run search accepts evs d = inl NullPointerDereference).
Proof.
  intros Hbuilt. split.
  - destruct (deliver_stepped ev d Hbuilt) as [(d' & Hrun & Hc & _)|Hfault];
      [left|by right].
    exists d'. split; [done | apply Hc].
  - destruct (run_stepped evs d Hbuilt) as [(d' & Hrun & Hc & _)|Hfault];
      [left|by right].
    exists d'. split; [done | apply Hc].
Qed.

(** X6: no event changes the candidate list and the store list given to
    [setMatches]: after any run of events they are what they were. *)
Theorem session_keeps_candidates (evs : list UserEvent) (d d' : Dialog) :
  menuBuilt d ->
  run search accepts evs d = inr (tt, d') ->
  m_matches d' = m_matches d ∧ m_dbs d' = m_dbs d.
Proof.
  intros Hbuilt Hrun.
  destruct (run_stepped evs d Hbuilt) as [(d2 & Hrun2 & Hc & _)|Hfault];
    [|congruence].
  rewrite Hrun in Hrun2. injection Hrun2 as <-.
  destruct Hc as (_ & Hd & Hm & _). done.
Qed.

(** X7: every event keeps the session consistent: six actions in the menu,
    the current index invalid or naming a displayed row, at most one radio
    button checked and, while Filter is checked, the view holding the
    original candidate list. *)
Theorem session_consistent (evs : list UserEvent) (d d' : Dialog) :
  consistent d ->
  run search accepts evs d = inr (tt, d') ->
  consistent d'.
Proof.
  intros (Hbuilt & Hi & He & Hf) Hrun.
  destruct (run_stepped evs d Hbuilt) as [(d2 & Hrun2 & Hc & _)|Hfault];
    [|congruence].
  rewrite Hrun in Hrun2. injection Hrun2 as <-.
  destruct Hc as (Hb' & _ & _ & Hi' & He' & Hf'). repeat split; auto.
Qed.

(** X8: the mode is changed by the radio buttons only: clicking Filter
    leaves the mode Filter, clicking Search leaves it Search, and every other
    event leaves it as it was. *)
Theorem mode_changes_by_radio_only (ev : UserEvent) (d d' : Dialog) :
  menuBuilt d ->
  exclusive d ->
  deliver search accepts ev d = inr (tt, d') ->
  mode d' = match ev with
            | FilterRadioClicked => Filter
            | SearchRadioClicked => Search
            | _ => mode d
            end.
Proof.
  intros Hbuilt Hexcl Hrun. unfold mode.
  assert (isRadioClick ev = false -> ui_filterRadio d' = ui_filterRadio d) as Hother.
  { intros Hev.
    destruct (deliver_stepped ev d Hbuilt) as [(d2 & Hrun2 & _ & _ & Hr & _)|[Hfault _]];
      [|congruence].
    rewrite Hrun in Hrun2. injection Hrun2 as <-. by destruct (Hr Hev). }
  destruct ev; try (by rewrite Hother); clear Hother; simpl in Hrun.
  - destruct (filterRadio_setChecked_carriedOver d Hbuilt) as (d2 & Hrun2 & _ & _ & Hf).
    rewrite Hrun in Hrun2. injection Hrun2 as <-. by rewrite Hf.
  - destruct (searchRadio_setChecked_carriedOver d Hbuilt)
      as (d2 & Hrun2 & Hc & _ & Hs).
    rewrite Hrun in Hrun2. injection Hrun2 as <-.
    destruct Hc as (_ & _ & _ & _ & He & _). specialize (He Hexcl).
    unfold exclusive in He. rewrite Hs, andb_true_r in He. by rewrite He.
Qed.

(** X9: whatever was searched or filtered before, switching to Filter
    displays the candidate list the session was opened with, narrowed by the
    current query text. *)
Theorem filter_switch_restores_original (evs : list UserEvent) (d0 d1 : Dialog) :
  menuBuilt d0 ->
  run search accepts evs d0 = inr (tt, d1) ->
  ui_filterRadio d1 = false ->
  exists d2,
    filterRadio_setChecked search accepts d1 = inr (tt, d2)
    ∧ mode d2 = Filter
    ∧ displayed (ui_view d2) = filtered accepts (ui_search d1) (m_matches d0).
Proof.
  intros Hbuilt Hrun Hfilter.
  destruct (run_stepped evs d0 Hbuilt) as [(d & Hrun2 & Hc & _)|Hfault];
    [|congruence].
  rewrite Hrun in Hrun2. injection Hrun2 as <-.
  destruct Hc as (Hbuilt1 & _ & Hm & _).
  destruct (filterRadio_setChecked_switch search accepts d1 Hbuilt1 Hfilter)
    as (acts & en & Hsw & _).
  eexists. split; [exact Hsw|]. split; [done|]. simpl. by rewrite Hm.
Qed.

Lemma filter_sublist (f : AutoTypeMatch -> bool) (ms : list AutoTypeMatch) :
  List.filter f ms `sublist_of` ms.
Proof.
  induction ms as [|m ms IH]; simpl; [constructor|].
  destruct (f m); by constructor.
Qed.

Lemma filtered_sublist (text : string) (ms : list AutoTypeMatch) :
  filtered accepts text ms `sublist_of` ms.
Proof. unfold filtered. destruct (isEmpty text); [done | apply filter_sublist]. Qed.

(** X10: in Filter mode a dispatch displays a sublist of the candidate list
    the session was opened with, in its order: that list narrowed by the
    current query text, and all of it when the text is empty. *)
Theorem filter_dispatch_narrows_original (evs : list UserEvent) (d0 d1 : Dialog) :
  consistent d0 ->
  run search accepts evs d0 = inr (tt, d1) ->
  mode d1 = Filter ->
  exists d2,
    performSearch search accepts d1 = inr (tt, d2)
    ∧ displayed (ui_view d2) = filtered accepts (ui_search d1) (m_matches d0)
    ∧ displayed (ui_view d2) `sublist_of` m_matches d0
    ∧ (ui_search d1 = "" -> displayed (ui_view d2) = m_matches d0).
Proof.
  intros (Hbuilt & Hi & He & Hf) Hrun Hmode.
  destruct (run_stepped evs d0 Hbuilt) as [(d & Hrun2 & Hc & _)|Hfault];
    [|congruence].
  rewrite Hrun in Hrun2. injection Hrun2 as <-.
  destruct Hc as (Hbuilt1 & _ & Hm & _ & _ & Hf1). specialize (Hf1 Hf).
  assert (ui_filterRadio d1 = true) as Hfilter
    by (unfold mode in Hmode; by destruct (ui_filterRadio d1)).
  destruct (performSearch_built search accepts d1 Hbuilt1) as (acts & en & Hps & _).
  assert (displayed (searchedView search accepts d1)
          = filtered accepts (ui_search d1) (m_matches d0)) as Hshown.
  { unfold searchedView. rewrite Hfilter. simpl. by rewrite (Hf1 Hfilter), Hm. }
  eexists. split; [exact Hps|]. simpl. rewrite Hshown.
  split; [done|]. split; [apply filtered_sublist|].
  intros Htext. by rewrite Htext.
Qed.

(** ** Opening *)

(** X2: [setMatches] on a dialog whose search field is empty returns and
    displays exactly the candidates supplied, in their order, with the first
    one current (none for an empty list); it stores both lists, leaves the
    session consistent and neither emits nor closes anything. *)
Theorem setMatches_displays_candidates (matches : list AutoTypeMatch)
    (dbs : list (Database Group)) (d : Dialog) :
  menuBuilt d ->
  exclusive d ->
  ui_search d = "" ->
  exists d',
    setMatches search accepts matches dbs d = inr (tt, d')
    ∧ m_matches d' = matches ∧ m_dbs d' = dbs
    ∧ displayed (ui_view d') = matches
    ∧ currentIndex (ui_view d') = indexOf matches 0
    ∧ consistent d'
    ∧ observed d' = observed d
    ∧ clipboardTexts d' = clipboardTexts d.
Proof.
  intros Hbuilt Hexcl Htext.
  set (d0 := set_dbs dbs (set_matches matches d)).
  assert (menuBuilt d0) as Hbuilt0 by exact Hbuilt.
  destruct (view_setMatchList_built matches d0 Hbuilt0) as (acts1 & en1 & Hset & Hlen1).
  set (d1 := set_actionMenu acts1 (set_action en1
               (set_view (View_setMatchList matches (ui_view d0)) d0))) in Hset.
  assert (menuBuilt d1) as Hbuilt1 by (unfold menuBuilt; simpl; by rewrite Hlen1).
  assert (setMatches search accepts matches dbs d
          = (match matches with
             | [] => searchRadio_setChecked search accepts
             | _ :: _ => filterRadio_setChecked search accepts
             end) d1) as Hstep.
  { unfold setMatches. unfold_slot. simpl.
    change (set_dbs dbs (set_matches matches d)) with d0.
    change (view_setMatchList matches d0) with (view_setMatchList (m_matches d0) d0).
    simpl m_matches. rewrite Hset. done. }
  rewrite Hstep. clear Hstep.
  assert (match indexOf matches 0 with
          | InvalidIndex => True
          | Index r => 0 <= r < Z.of_nat (length matches)
          end) as Hrange.
  { pose proof (indexOf_inRange matches 0) as Hr. destruct (indexOf matches 0); naive_solver. }
  unfold consistent, menuBuilt, indexInRange, exclusive, filterOriginal in *.
  destruct matches as [|m ms].
  - destruct (ui_searchRadio d) eqn:Hsearch.
    + exists d1. unfold searchRadio_setChecked. unfold_slot. simpl. rewrite Hsearch.
      rewrite Hlen1. by repeat split.
    + destruct (searchRadio_setChecked_switch search accepts d1 Hbuilt1 Hsearch)
        as (acts & en & Hrun & Hlen).
      eexists. split; [exact Hrun|]. simpl. rewrite Htext. simpl.
      rewrite Hlen. simpl. rewrite Hlen1. by repeat split.
  - destruct (ui_filterRadio d) eqn:Hfilter.
    + exists d1. unfold filterRadio_setChecked. unfold_slot. simpl. rewrite Hfilter.
      rewrite Hlen1. by repeat split.
    + destruct (filterRadio_setChecked_switch search accepts d1 Hbuilt1 Hfilter)
        as (acts & en & Hrun & Hlen).
      eexists. split; [exact Hrun|]. simpl. rewrite Htext. simpl.
      rewrite Hlen. simpl. rewrite Hlen1. by repeat split.
Qed.

(** ** Navigation, step by step *)

Lemma indexOf_valid (rows : list AutoTypeMatch) (r : Z) :
  0 <= r < Z.of_nat (length rows) -> indexOf rows r = Index r.
Proof. intros Hr. rewrite indexOf_spec. by rewrite (bool_decide_eq_true_2 _ Hr). Qed.

Lemma indexOf_invalid (rows : list AutoTypeMatch) (r : Z) :
  ¬ (0 <= r < Z.of_nat (length rows)) -> indexOf rows r = InvalidIndex.
Proof. intros Hr. rewrite indexOf_spec. by rewrite (bool_decide_eq_false_2 _ Hr). Qed.

(** One step down from a row of the list: to the next row, or nowhere from
    the last one. *)
Lemma moveSelectionDown_index (d : Dialog) (r : Z) :
  menuBuilt d ->
  currentIndex (ui_view d) = Index r ->
  0 <= r < Z.of_nat (length (displayed (ui_view d))) ->
  exists d',
    moveSelectionDown d = inr (tt, d')
    ∧ menuBuilt d'
    ∧ currentIndex (ui_view d')
      = Index (Z.min (r + 1) (Z.of_nat (length (displayed (ui_view d))) - 1))
    ∧ displayed (ui_view d') = displayed (ui_view d)
    ∧ matchList (ui_view d') = matchList (ui_view d)
    ∧ untouched d' = untouched d.
Proof.
  intros Hbuilt Hcur Hr.
  destruct (moveSelectionDown_form d Hbuilt) as (d' & Hrun & Hform).
  exists d'. split; [done|]. rewrite Hcur in Hform. simpl in Hform.
  destruct (decide (r + 1 < Z.of_nat (length (displayed (ui_view d))))) as [Hnext|Hlast].
  - rewrite indexOf_valid in Hform by lia.
    destruct Hform as (acts & en & -> & Hlen).
    unfold menuBuilt in *. simpl. rewrite Hlen.
    repeat split; try done. f_equal. lia.
  - rewrite indexOf_invalid in Hform by lia. subst d'.
    repeat split; try done. rewrite Hcur. f_equal. lia.
Qed.

Lemma moveSelectionUp_index (d : Dialog) (r : Z) :
  menuBuilt d ->
  currentIndex (ui_view d) = Index r ->
  0 <= r < Z.of_nat (length (displayed (ui_view d))) ->
  exists d',
    moveSelectionUp d = inr (tt, d')
    ∧ menuBuilt d'
    ∧ currentIndex (ui_view d') = Index (Z.max (r - 1) 0)
    ∧ displayed (ui_view d') = displayed (ui_view d)
    ∧ matchList (ui_view d') = matchList (ui_view d)
    ∧ untouched d' = untouched d.
Proof.
  intros Hbuilt Hcur Hr.
  destruct (moveSelectionUp_form d Hbuilt) as (d' & Hrun & Hform).
  exists d'. split; [done|]. rewrite Hcur in Hform. simpl in Hform.
  destruct (decide (0 < r)) as [Hprev|Hfirst].
  - rewrite indexOf_valid in Hform by lia.
    destruct Hform as (acts & en & -> & Hlen).
    unfold menuBuilt in *. simpl. rewrite Hlen.
    repeat split; try done. f_equal. lia.
  - rewrite indexOf_invalid in Hform by lia. subst d'.
    repeat split; try done. rewrite Hcur. f_equal. lia.
Qed.

Lemma view_eta (v v' : AutoTypeMatchView) :
  matchList v' = matchList v -> displayed v' = displayed v ->
  currentIndex v' = currentIndex v -> v' = v.
Proof. destruct v, v'; simpl; by intros -> -> ->. Qed.

(** X11: moving the selection down and then up again, from any row but the
    last, brings back the same view; so does moving up and then down from any
    row but the first.  Neither closes, emits or copies anything. *)
Theorem moveSelection_round_trip (d : Dialog) (r : Z) :
  menuBuilt d ->
  currentIndex (ui_view d) = Index r ->
  0 <= r < Z.of_nat (length (displayed (ui_view d))) ->
  (r + 1 < Z.of_nat (length (displayed (ui_view d))) ->
   exists d1 d2,
     moveSelectionDown d = inr (tt, d1)
     ∧ currentIndex (ui_view d1) = Index (r + 1)
     ∧ moveSelectionUp d1 = inr (tt, d2)
     ∧ ui_view d2 = ui_view d
     ∧ untouched d2 = untouched d)
  ∧ (0 < r ->
     exists d1 d2,
       moveSelectionUp d = inr (tt, d1)
       ∧ currentIndex (ui_view d1) = Index (r - 1)
       ∧ moveSelectionDown d1 = inr (tt, d2)
       ∧ ui_view d2 = ui_view d
       ∧ untouched d2 = untouched d).
Proof.
  intros Hbuilt Hcur Hr. split.
  - intros Hnext.
    destruct (moveSelectionDown_index d r Hbuilt Hcur Hr)
      as (d1 & Hrun1 & Hb1 & Hc1 & Hd1 & Hl1 & Hu1).
    rewrite Z.min_l in Hc1 by lia.
    destruct (moveSelectionUp_index d1 (r + 1) Hb1 Hc1)
      as (d2 & Hrun2 & _ & Hc2 & Hd2 & Hl2 & Hu2); [rewrite Hd1; lia|].
    exists d1, d2. repeat split; try done; [|congruence].
    apply view_eta; [congruence | congruence |].
    rewrite Hc2, Hcur. f_equal. lia.
  - intros Hprev.
    destruct (moveSelectionUp_index d r Hbuilt Hcur Hr)
      as (d1 & Hrun1 & Hb1 & Hc1 & Hd1 & Hl1 & Hu1).
    rewrite Z.max_l in Hc1 by lia.
    destruct (moveSelectionDown_index d1 (r - 1) Hb1 Hc1)
      as (d2 & Hrun2 & _ & Hc2 & Hd2 & Hl2 & Hu2); [rewrite Hd1; lia|].
    exists d1, d2. repeat split; try done; [|congruence].
    apply view_eta; [congruence | congruence |].
    rewrite Hc2, Hcur, Hd1. f_equal. lia.
Qed.

(** Key presses in the search field as delivered events. *)
Lemma deliver_key_down (d d' : Dialog) :
  moveSelectionDown d = inr (tt, d') ->
  deliver search accepts (SearchKeyPress Key_Down) d = inr (tt, d').
Proof.
  intros Hrun. simpl. by rewrite (bind_inr _ _ _ _ _ (bind_inr _ _ _ _ _ Hrun)).
Qed.

Lemma deliver_key_up (d d' : Dialog) :
  moveSelectionUp d = inr (tt, d') ->
  deliver search accepts (SearchKeyPress Key_Up) d = inr (tt, d').
Proof.
  intros Hrun. simpl. by rewrite (bind_inr _ _ _ _ _ (bind_inr _ _ _ _ _ Hrun)).
Qed.

(** X12: pressing Down n times in the search field moves the selection
    n rows down and stops at the last row; pressing Up n times moves it n
    rows up and stops at the first.  The displayed list is not changed and
    the session stays as open as it was.  Induction on n. *)
Theorem repeated_keys_saturate (n : nat) :
  forall (d : Dialog) (r : Z),
    menuBuilt d ->
    visible d = true ->
    currentIndex (ui_view d) = Index r ->
    0 <= r < Z.of_nat (length (displayed (ui_view d))) ->
    (exists d',
       run search accepts (replicate n (SearchKeyPress Key_Down)) d = inr (tt, d')
       ∧ currentIndex (ui_view d')
         = Index (Z.min (r + Z.of_nat n) (Z.of_nat (length (displayed (ui_view d))) - 1))
       ∧ displayed (ui_view d') = displayed (ui_view d)
       ∧ untouched d' = untouched d)
    ∧ (exists d',
         run search accepts (replicate n (SearchKeyPress Key_Up)) d = inr (tt, d')
         ∧ currentIndex (ui_view d') = Index (Z.max (r - Z.of_nat n) 0)
         ∧ displayed (ui_view d') = displayed (ui_view d)
         ∧ untouched d' = untouched d).
Proof.
  induction n as [|n IH]; intros d r Hbuilt Hvis Hcur Hr.
  - split; exists d; (split; [done|]); rewrite Hcur;
      (split; [f_equal; lia | done]).
  - split.
    + destruct (moveSelectionDown_index d r Hbuilt Hcur Hr)
        as (d1 & Hrun1 & Hb1 & Hc1 & Hd1 & _ & Hu1).
      assert (visible d1 = true) as Hvis1 by (unfold untouched in Hu1; congruence).
      destruct (IH d1 _ Hb1 Hvis1 Hc1) as [(d' & Hrun & Hc & Hd & Hu) _];
        [rewrite Hd1; lia|].
      exists d'. rewrite replicate_S, run_cons_open by done.
      rewrite (bind_inr _ _ _ _ _ (deliver_key_down _ _ Hrun1)).
      split; [done|]. split; [|split; congruence].
      rewrite Hc, Hd1. f_equal. lia.
    + destruct (moveSelectionUp_index d r Hbuilt Hcur Hr)
        as (d1 & Hrun1 & Hb1 & Hc1 & Hd1 & _ & Hu1).
      assert (visible d1 = true) as Hvis1 by (unfold untouched in Hu1; congruence).
      destruct (IH d1 _ Hb1 Hvis1 Hc1) as [_ (d' & Hrun & Hc & Hd & Hu)];
        [rewrite Hd1; lia|].
      exists d'. rewrite replicate_S, run_cons_open by done.
      rewrite (bind_inr _ _ _ _ _ (deliver_key_up _ _ Hrun1)).
      split; [done|]. split; [|split; congruence].
      rewrite Hc. f_equal. lia.
Qed.

(** ** Typing and the timer *)

Lemma lastText_cons (t : string) (texts : list string) (text : string) :
  lastText (t :: texts) text = lastText texts t.
Proof. unfold lastText. rewrite last_cons. by destruct (last texts). Qed.

(** A run of text edits changes the text and the timer only: the text is
    the last one typed, and the timer runs if it ran before or the text
    differs from what it was.  Induction on the edits. *)
Lemma run_text_edits (texts : list string) :
  forall d : Dialog,
    visible d = true ->
    exists tm,
      run search accepts (TextEdited <$> texts) d
      = inr (tt, set_searchTimer tm (set_search (lastText texts (ui_search d)) d))
      ∧ (m_searchTimer d = true -> tm = true)
      ∧ (lastText texts (ui_search d) ≠ ui_search d -> tm = true)
      ∧ (texts = [] -> tm = m_searchTimer d).
Proof.
  induction texts as [|t texts IH]; intros d Hvis.
  - exists (m_searchTimer d). split; [by destruct d|]. by repeat split.
  - rewrite fmap_cons, run_cons_open by done. simpl deliver.
    rewrite (bind_inr _ _ _ _ _ (search_setText_run t d)), lastText_cons.
    case_bool_decide as Hsame.
    + destruct (IH d Hvis) as (tm & Hrun & Htm & Hlast & _).
      exists tm. rewrite <- Hsame. split; [done|]. split; [done|]. split; [done|].
      discriminate.
    + destruct (IH (set_searchTimer true (set_search t d)) Hvis)
        as (tm & Hrun & Htm & _).
      exists tm. split; [exact Hrun|]. rewrite (Htm eq_refl).
      split; [done|]. split; [done|]. discriminate.
Qed.

(** X13: text edits alone never dispatch: after any run of them the view is
    what it was, the text is the last one typed, and the timer runs whenever
    the text has changed.  When the timer then fires, one dispatch is made
    for that last text and the timer stops, so that a second timeout does
    nothing. *)
Theorem typing_is_debounced (texts : list string) (d : Dialog) :
  menuBuilt d ->
  visible d = true ->
  exists d1,
    run search accepts (TextEdited <$> texts) d = inr (tt, d1)
    ∧ ui_view d1 = ui_view d
    ∧ untouched d1 = untouched d
    ∧ ui_search d1 = lastText texts (ui_search d)
    ∧ (ui_search d1 ≠ ui_search d -> m_searchTimer d1 = true)
    ∧ (m_searchTimer d1 = true ->
       exists d2,
         deliver search accepts TimerTimeout d1 = inr (tt, d2)
         ∧ ui_view d2 = searchedView search accepts d1
         ∧ m_searchTimer d2 = false
         ∧ untouched d2 = untouched d
         ∧ deliver search accepts TimerTimeout d2 = inr (tt, d2)).
Proof.
  intros Hbuilt Hvis.
  destruct (run_text_edits texts d Hvis) as (tm & Hrun & _ & Hchanged & _).
  eexists. split; [exact Hrun|]. split; [done|]. split; [done|]. split; [done|].
  split; [exact Hchanged|]. simpl m_searchTimer. intros ->.
  set (d1 := set_searchTimer true (set_search (lastText texts (ui_search d)) d)).
  destruct (performSearch_carriedOver (set_searchTimer false d1) Hbuilt)
    as (d2 & Hps & _ & Hu & _ & _ & Hview & _ & Htimer).
  exists d2. simpl deliver. unfold mbind at 1, Slot_bind, get. simpl m_searchTimer.
  cbv iota. split; [exact Hps|]. split; [exact Hview|]. split; [exact Htimer|].
  split; [exact Hu|].
  unfold mbind at 1, Slot_bind, get. rewrite Htimer. done.
Qed.

(** ** Escape, and what the event filter lets through *)

(** X15: pressing Escape twice in the search field of an open session always
    cancels it: whatever the query text was, the session ends rejected with
    [rejected] emitted once, the displayed list untouched, nothing copied. *)
Theorem escape_twice_cancels (d : Dialog) :
  visible d = true ->
  exists d',
    run search accepts [SearchKeyPress Key_Escape; SearchKeyPress Key_Escape] d
    = inr (tt, d')
    ∧ sessionState d' = Closed Rejected
    ∧ emitted d' = emitted d ++ [finished Rejected; rejected]
    ∧ ui_search d' = ""
    ∧ ui_view d' = ui_view d
    ∧ clipboardTexts d' = clipboardTexts d
    ∧ m_accepted d' = m_accepted d.
Proof.
  intros Hvis. rewrite run_cons_open by done. simpl deliver.
  rewrite (bind_inr _ _ _ _ _ (bind_inr _ _ _ _ _ (eventFilter_escape_run d))).
  destruct (isEmpty (ui_search d)) eqn:Hempty.
  - rewrite run_cons_closed by done. eexists. split; [reflexivity|].
    apply isEmpty_true in Hempty. by repeat split.
  - rewrite run_cons_open by done. simpl deliver.
    rewrite (bind_inr _ _ _ _ _ (bind_inr _ _ _ _ _ (eventFilter_escape_run _))).
    simpl. eexists. split; [reflexivity|]. by repeat split.
Qed.

(** X16: the event filter consumes exactly four key presses: Down on the
    action button, which only shows the menu, and Up, Down and Escape in the
    search field.  Every other event is passed on with the dialog left as it
    was. *)
Theorem eventFilter_consumes (obj : Watched) (event : QEvent) (b : bool)
    (d d' : Dialog) :
  eventFilter obj event d = inr (b, d') ->
  b = consumed obj event
  ∧ (b = false -> d' = d)
  ∧ (obj = obj_action -> b = true -> d' = set_menuShown true d)
  ∧ (obj = obj_search -> event ≠ KeyPress Key_Escape -> observed d' = observed d).
Proof.
  intros Hrun. destruct obj, event as [k|]; try destruct k; simpl in Hrun;
    unfold QDialog_eventFilter, action_showMenu in Hrun;
    try (unfold_slot; simplify_eq; by repeat split).
  - apply bind_returns in Hrun as (u & d1 & Hmove & Hret).
    unfold_slot. simplify_eq. repeat split; try done.
    intros _ _. by apply (silent_moveSelectionUp _ _ _ Hmove).
  - apply bind_returns in Hrun as (u & d1 & Hmove & Hret).
    unfold_slot. simplify_eq. repeat split; try done.
    intros _ _. by apply (silent_moveSelectionDown _ _ _ Hmove).
  - change (eventFilter obj_search (KeyPress Key_Escape) d = inr (b, d')) in Hrun.
    rewrite eventFilter_escape_run in Hrun. simplify_eq. by repeat split.
Qed.

(** ** What a closed session has emitted and copied *)

(** The event that closes an open, not yet accepted dialog: a submission
    appends [finished], [accepted] and [matchActivated]; a rejection appends
    [finished] and [rejected], preceded by one more [rejected] when the
    window is closed. *)
Lemma deliver_closing (ev : UserEvent) (d d' : Dialog) :
  menuBuilt d ->
  visible d = true -> m_accepted d = false ->
  deliver search accepts ev d = inr (tt, d') ->
  visible d' = false ->
  (result d' = Accepted ∧ m_accepted d' = true
   ∧ clipboardTexts d' = clipboardTexts d
   ∧ exists m, emitted d' = emitted d ++ [finished Accepted; accepted; matchActivated m])
  ∨ (result d' = Rejected ∧ m_accepted d' = false
     ∧ emitted d'
       = emitted d ++ (if isWindowClose ev
                       then [rejected; finished Rejected; rejected]
                       else [finished Rejected; rejected])
     ∧ (clipboardTexts d' = clipboardTexts d ∨ copied ev d d')).
Proof.
  intros Hbuilt Hvis Hacc Hrun Hclosed.
  destruct (deliver_stepped ev d Hbuilt) as [(d2 & Hrun2 & _ & Hopen & _ & Hclip)|[Hf _]];
    [|congruence].
  rewrite Hrun in Hrun2. injection Hrun2 as <-. clear Hopen.
  assert (forall c : Slot unit, silent c -> c d = inr (tt, d') -> False) as Hsilent.
  { intros c Hc Hcd. specialize (Hc _ _ _ Hcd). unfold observed in Hc. congruence. }
  destruct ev as [t| | |k|k| | |m| | | |a|]; simpl in Hrun; simpl isWindowClose; cbv iota.
  - exfalso. by apply (Hsilent _ (silent_search_setText t)).
  - exfalso. revert Hrun. apply Hsilent.
    apply silent_bind; [apply silent_get | intros d0].
    destruct (m_searchTimer d0); [|apply silent_skip].
    apply silent_bind; [|intros _; apply silent_performSearch].
    apply silent_modify. by intros ?.
  - left. unfold activateCurrentMatch in Hrun. unfold mbind, Slot_bind, get in Hrun.
    rewrite submitAutoTypeMatch_run in Hrun. simplify_eq. repeat split; try done; eauto.
  - apply bind_returns in Hrun as (b & d1 & Hrun & Hret).
    unfold skip, mret, Slot_ret in Hret. simplify_eq.
    destruct k.
    + exfalso. simpl in Hrun. apply bind_returns in Hrun as ([] & d2 & Hrun & Hret).
      unfold mret, Slot_ret in Hret. simplify_eq.
      by apply (Hsilent _ silent_moveSelectionUp).
    + exfalso. simpl in Hrun. apply bind_returns in Hrun as ([] & d2 & Hrun & Hret).
      unfold mret, Slot_ret in Hret. simplify_eq.
      by apply (Hsilent _ silent_moveSelectionDown).
    + change (eventFilter obj_search (KeyPress Key_Escape) d = inr (b, d')) in Hrun.
      rewrite eventFilter_escape_run in Hrun. simplify_eq.
      destruct (isEmpty (ui_search d)); simpl in *; [|congruence].
      right. repeat split; try done; by left.
    + simpl in Hrun. unfold QDialog_eventFilter, mret, Slot_ret in Hrun.
      simplify_eq. congruence.
  - exfalso. apply bind_returns in Hrun as (b & d1 & Hrun & Hret).
    unfold skip, mret, Slot_ret in Hret. simplify_eq.
    destruct k; simpl in Hrun; unfold QDialog_eventFilter, action_showMenu in Hrun;
      unfold_slot; simplify_eq; simpl in *; congruence.
  - left. unfold activateCurrentMatch in Hrun. unfold mbind, Slot_bind, get in Hrun.
    rewrite submitAutoTypeMatch_run in Hrun. simplify_eq. repeat split; try done; eauto.
  - right. rewrite reject_run in Hrun. simplify_eq. repeat split; try done; by left.
  - left. rewrite submitAutoTypeMatch_run in Hrun. simplify_eq. repeat split; try done; eauto.
  - exfalso. by apply (Hsilent _ (silent_filterRadio_setChecked search accepts)).
  - exfalso. by apply (Hsilent _ (silent_searchRadio_setChecked search accepts)).
  - exfalso. revert Hrun. apply Hsilent.
    unfold customContextMenuRequested, m_actionMenu_popup.
    apply silent_bind; [apply silent_get | intros d0].
    destruct (currentMatch (ui_view d0)).1; [|apply silent_skip].
    apply silent_modify. by intros ?.
  - destruct (copyField a) as [field|] eqn:Hfield.
    + right. rewrite (triggered_copy _ _ Hfield), copyAction_run in Hrun.
      destruct (currentMatch (ui_view d)).1 as [e|] eqn:Hsel; [|discriminate].
      simplify_eq. by repeat split.
    + left. destruct (typePlaceholder a) as [placeholder|] eqn:Hp; [|by destruct a].
      rewrite (triggered_type _ _ Hp), typeAction_run in Hrun.
      simplify_eq. repeat split; try done; eauto.
  - right. rewrite closeEvent_form in Hrun. rewrite Hacc, Hvis in Hrun.
    simpl in Hrun. simplify_eq. simpl. rewrite <- app_assoc.
    repeat split; try done; by left.
Qed.

(** X17: a session that starts with nothing emitted ends with one of three
    signal logs and no other: [finished(Accepted)], [accepted()],
    [matchActivated] when a match was submitted; [finished(Rejected)],
    [rejected()] when it was cancelled; and the latter preceded by one more
    [rejected()] when the window was closed.  [accepted()] always comes
    before [matchActivated]. *)
Theorem session_log (evs : list UserEvent) (ev : UserEvent) (d0 d1 d : Dialog) :
  menuBuilt d0 ->
  visible d0 = true -> m_accepted d0 = false -> emitted d0 = [] ->
  run search accepts evs d0 = inr (tt, d1) ->
  visible d1 = true ->
  deliver search accepts ev d1 = inr (tt, d) ->
  visible d = false ->
  (result d = Accepted
   ∧ exists m, emitted d = [finished Accepted; accepted; matchActivated m])
  ∨ (result d = Rejected
     ∧ emitted d = if isWindowClose ev
                   then [rejected; finished Rejected; rejected]
                   else [finished Rejected; rejected]).
Proof.
  intros Hbuilt Hvis Hacc Hlog Hrun Hopen Hdeliver Hclosed.
  destruct (run_stepped evs d0 Hbuilt) as [(d2 & Hrun2 & Hc & Hu)|Hfault];
    [|congruence].
  rewrite Hrun in Hrun2. injection Hrun2 as <-.
  specialize (Hu Hopen). unfold untouched in Hu.
  assert (m_accepted d1 = false) as Hacc1 by congruence.
  assert (emitted d1 = []) as Hlog1 by congruence.
  destruct (deliver_closing ev d1 d (proj1 Hc) Hopen Hacc1 Hdeliver Hclosed)
    as [(Hres & _ & _ & m & Hem)|(Hres & _ & Hem & _)]; rewrite Hlog1 in Hem.
  - left. split; [done|]. by exists m.
  - right. by split.
Qed.

(** X18: a session that starts with nothing copied sends at most one text
    to the clipboard, and only by ending: if a text was sent, the closing
    event was a copy action, the text is the field of the entry then
    selected, and the session ended rejected without [matchActivated]. *)
Theorem session_clipboard (evs : list UserEvent) (ev : UserEvent) (d0 d1 d : Dialog) :
  menuBuilt d0 ->
  visible d0 = true -> m_accepted d0 = false -> clipboardTexts d0 = [] ->
  matchActivatedCount d0 = 0%nat ->
  run search accepts evs d0 = inr (tt, d1) ->
  visible d1 = true ->
  deliver search accepts ev d1 = inr (tt, d) ->
  visible d = false ->
  clipboardTexts d1 = []
  ∧ (clipboardTexts d = []
     ∨ exists a field e,
         ev = MenuTriggered a ∧ copyField a = Some field
         ∧ (currentMatch (ui_view d1)).1 = Some e
         ∧ clipboardTexts d = [field e]
         ∧ result d = Rejected
         ∧ matchActivatedCount d = 0%nat).
Proof.
  intros Hbuilt Hvis Hacc Hclip Hcount Hrun Hopen Hdeliver Hclosed.
  destruct (run_stepped evs d0 Hbuilt) as [(d2 & Hrun2 & Hc & Hu)|Hfault];
    [|congruence].
  rewrite Hrun in Hrun2. injection Hrun2 as <-.
  specialize (Hu Hopen). unfold untouched in Hu.
  assert (m_accepted d1 = false) as Hacc1 by congruence.
  assert (clipboardTexts d1 = []) as Hclip1 by congruence.
  assert (emitted d1 = emitted d0) as Hlog1 by congruence.
  split; [done|].
  destruct (deliver_closing ev d1 d (proj1 Hc) Hopen Hacc1 Hdeliver Hclosed)
    as [(_ & _ & Hsame & _)|(Hres & _ & Hem & [Hsame|Hcopied])].
  - left. congruence.
  - left. congruence.
  - right. destruct Hcopied as (a & field & e & -> & Hfield & Hsel & Htext & _ & _ & Hem' & _).
    exists a, field, e. rewrite Htext, Hclip1. repeat split; try done.
    destruct (emitted_counts d1 d _ Hem') as [-> _].
    unfold matchActivatedCount at 1. rewrite Hlog1. fold (matchActivatedCount d0).
    rewrite Hcount. done.
Qed.

End SessionFacts.

(** ** Instances on the sample sessions *)

Lemma type_action_accepts_witness :
  typePlaceholder typeTotpAction = Some "{TOTP}"
  ∧ exists d',
      triggered typeTotpAction mailSession = inr (tt, d')
      ∧ sessionState d' = Closed Accepted
      ∧ emitted d'
        = emitted mailSession
          ++ [finished Accepted; accepted;
              matchActivated ((currentMatch (ui_view mailSession)).1, "{TOTP}")]
      ∧ clipboardTexts d' = clipboardTexts mailSession.
Proof.
  split; [reflexivity|].
  destruct (type_action_accepts typeTotpAction "{TOTP}" mailSession eq_refl)
    as (d' & Hrun & Hstate & _ & Hlog & Hclip & _).
  exists d'. split; [exact Hrun|]. split; [exact Hstate|].
  split; [exact Hlog | exact Hclip].
Defined.

Lemma setMatches_displays_candidates_witness :
  menuBuilt (constructed (Group := list Entry))
  ∧ exclusive (constructed (Group := list Entry))
  ∧ ui_search (constructed (Group := list Entry)) = ""
  ∧ exists d',
      setMatches prefixSearch prefixAccepts
        [(Some bank, "{USERNAME}{ENTER}"); (Some bank, "{TOTP}")] [storeA] constructed
      = inr (tt, d')
      ∧ displayed (ui_view d') = [(Some bank, "{USERNAME}{ENTER}"); (Some bank, "{TOTP}")]
      ∧ consistent d'.
Proof.
  assert (menuBuilt (constructed (Group := list Entry))) as Hbuilt
    by (unfold menuBuilt; simpl; lia).
  split; [exact Hbuilt|]. split; [reflexivity|]. split; [reflexivity|].
  destruct (setMatches_displays_candidates prefixSearch prefixAccepts
              [(Some bank, "{USERNAME}{ENTER}"); (Some bank, "{TOTP}")] [storeA]
              constructed Hbuilt eq_refl eq_refl)
    as (d' & Hrun & _ & _ & Hshown & _ & Hcons & _).
  exists d'. split; [exact Hrun|]. split; [exact Hshown | exact Hcons].
Defined.

Lemma closeEvent_after_closing_witness :
  m_accepted mailSession = false
  ∧ (submitAutoTypeMatch (Some mail, "{USERNAME}") ;; closeEvent) mailSession
    = submitAutoTypeMatch (Some mail, "{USERNAME}") mailSession.
Proof.
  split; [reflexivity|].
  exact (proj1 (closeEvent_after_closing (Some mail, "{USERNAME}") mailSession eq_refl)).
Defined.

Lemma session_faults_only_on_copy_witness :
  menuBuilt emptySession
  ∧ ((exists d',
        deliver prefixSearch prefixAccepts (MenuTriggered copyUsernameAction) emptySession
        = inr (tt, d') ∧ menuBuilt d')
     ∨ (deliver prefixSearch prefixAccepts (MenuTriggered copyUsernameAction) emptySession
        = inl NullPointerDereference
        ∧ copyOfNothing (MenuTriggered copyUsernameAction) emptySession))
  ∧ ((exists d',
        run prefixSearch prefixAccepts [TextEdited "Ma"; TimerTimeout] emptySession
        = inr (tt, d') ∧ menuBuilt d')
     ∨ run prefixSearch prefixAccepts [TextEdited "Ma"; TimerTimeout] emptySession
       = inl NullPointerDereference).
Proof.
  assert (menuBuilt emptySession) as Hbuilt by (unfold menuBuilt; simpl; lia).
  split; [exact Hbuilt|].
  exact (session_faults_only_on_copy prefixSearch prefixAccepts
           (MenuTriggered copyUsernameAction) [TextEdited "Ma"; TimerTimeout]
           emptySession Hbuilt).
Defined.

Lemma session_keeps_candidates_witness :
  menuBuilt (set_search "Ma" mailSession)
  ∧ run prefixSearch prefixAccepts [SearchRadioClicked] (set_search "Ma" mailSession)
    = inr (tt, mailSearching)
  ∧ m_matches mailSearching = m_matches (set_search "Ma" mailSession)
  ∧ m_dbs mailSearching = m_dbs (set_search "Ma" mailSession).
Proof.
  assert (menuBuilt (set_search "Ma" mailSession)) as Hbuilt
    by (unfold menuBuilt; simpl; lia).
  assert (run prefixSearch prefixAccepts [SearchRadioClicked] (set_search "Ma" mailSession)
          = inr (tt, mailSearching)) as Hrun by (vm_compute; reflexivity).
  split; [exact Hbuilt|]. split; [exact Hrun|].
  exact (session_keeps_candidates prefixSearch prefixAccepts _ _ _ Hbuilt Hrun).
Defined.

Lemma session_consistent_witness :
  consistent emptySession
  ∧ run prefixSearch prefixAccepts [TextEdited "Ma"; TimerTimeout] emptySession
    = inr (tt, searchedSession)
  ∧ consistent searchedSession.
Proof.
  assert (consistent emptySession) as Hcons.
  { split; [unfold menuBuilt; simpl; lia|]. split; [exact I|].
    split; [reflexivity|]. intros Hfilter. discriminate Hfilter. }
  assert (run prefixSearch prefixAccepts [TextEdited "Ma"; TimerTimeout] emptySession
          = inr (tt, searchedSession)) as Hrun by (vm_compute; reflexivity).
  split; [exact Hcons|]. split; [exact Hrun|].
  exact (session_consistent prefixSearch prefixAccepts _ _ _ Hcons Hrun).
Defined.

Lemma mode_changes_by_radio_only_witness :
  menuBuilt (set_search "Ma" mailSession)
  ∧ exclusive (set_search "Ma" mailSession)
  ∧ deliver prefixSearch prefixAccepts SearchRadioClicked (set_search "Ma" mailSession)
    = inr (tt, mailSearching)
  ∧ mode mailSearching = Search.
Proof.
  assert (menuBuilt (set_search "Ma" mailSession)) as Hbuilt
    by (unfold menuBuilt; simpl; lia).
  assert (deliver prefixSearch prefixAccepts SearchRadioClicked
            (set_search "Ma" mailSession) = inr (tt, mailSearching)) as Hrun
    by (vm_compute; reflexivity).
  split; [exact Hbuilt|]. split; [reflexivity|]. split; [exact Hrun|].
  exact (mode_changes_by_radio_only prefixSearch prefixAccepts SearchRadioClicked
           _ _ Hbuilt eq_refl Hrun).
Defined.

Lemma filter_switch_restores_original_witness :
  menuBuilt (set_search "Ma" mailSession)
  ∧ run prefixSearch prefixAccepts [SearchRadioClicked] (set_search "Ma" mailSession)
    = inr (tt, mailSearching)
  ∧ ui_filterRadio mailSearching = false
  ∧ exists d2,
      filterRadio_setChecked prefixSearch prefixAccepts mailSearching = inr (tt, d2)
      ∧ mode d2 = Filter
      ∧ displayed (ui_view d2)
        = filtered prefixAccepts (ui_search mailSearching)
            (m_matches (set_search "Ma" mailSession)).
Proof.
  assert (menuBuilt (set_search "Ma" mailSession)) as Hbuilt
    by (unfold menuBuilt; simpl; lia).
  assert (run prefixSearch prefixAccepts [SearchRadioClicked] (set_search "Ma" mailSession)
          = inr (tt, mailSearching)) as Hrun by (vm_compute; reflexivity).
  split; [exact Hbuilt|]. split; [exact Hrun|]. split; [reflexivity|].
  exact (filter_switch_restores_original prefixSearch prefixAccepts _ _ _
           Hbuilt Hrun eq_refl).
Defined.

Lemma filter_dispatch_narrows_original_witness :
  consistent mailSession
  ∧ run prefixSearch prefixAccepts [TextEdited "Ma"] mailSession = inr (tt, mailTyped)
  ∧ mode mailTyped = Filter
  ∧ exists d2,
      performSearch prefixSearch prefixAccepts mailTyped = inr (tt, d2)
      ∧ displayed (ui_view d2)
        = filtered prefixAccepts (ui_search mailTyped) (m_matches mailSession)
      ∧ displayed (ui_view d2) `sublist_of` m_matches mailSession.
Proof.
  assert (consistent mailSession) as Hcons.
  { split; [unfold menuBuilt; simpl; lia|]. split; [unfold indexInRange; simpl; lia|].
    split; [reflexivity|]. intros _. reflexivity. }
  assert (run prefixSearch prefixAccepts [TextEdited "Ma"] mailSession
          = inr (tt, mailTyped)) as Hrun by (vm_compute; reflexivity).
  split; [exact Hcons|]. split; [exact Hrun|]. split; [reflexivity|].
  destruct (filter_dispatch_narrows_original prefixSearch prefixAccepts _ _ _
              Hcons Hrun eq_refl) as (d2 & Hps & Hshown & Hsub & _).
  exists d2. split; [exact Hps|]. split; [exact Hshown | exact Hsub].
Defined.

Lemma moveSelection_round_trip_witness :
  menuBuilt bankSession
  ∧ currentIndex (ui_view bankSession) = Index 0
  ∧ 0 <= 0 < Z.of_nat (length (displayed (ui_view bankSession)))
  ∧ 0 + 1 < Z.of_nat (length (displayed (ui_view bankSession)))
  ∧ exists d1 d2,
      moveSelectionDown bankSession = inr (tt, d1)
      ∧ currentIndex (ui_view d1) = Index (0 + 1)
      ∧ moveSelectionUp d1 = inr (tt, d2)
      ∧ ui_view d2 = ui_view bankSession.
Proof.
  assert (menuBuilt bankSession) as Hbuilt by (unfold menuBuilt; simpl; lia).
  assert (0 <= 0 < Z.of_nat (length (displayed (ui_view bankSession)))) as Hr
    by (simpl; lia).
  assert (0 + 1 < Z.of_nat (length (displayed (ui_view bankSession)))) as Hnext
    by (simpl; lia).
  split; [exact Hbuilt|]. split; [reflexivity|]. split; [exact Hr|].
  split; [exact Hnext|].
  destruct (proj1 (moveSelection_round_trip bankSession 0 Hbuilt eq_refl Hr) Hnext)
    as (d1 & d2 & Hdown & Hcur & Hup & Hview & _).
  exists d1, d2. split; [exact Hdown|]. split; [exact Hcur|].
  split; [exact Hup | exact Hview].
Defined.

Lemma repeated_keys_saturate_witness :
  menuBuilt bankSession
  ∧ visible bankSession = true
  ∧ currentIndex (ui_view bankSession) = Index 0
  ∧ 0 <= 0 < Z.of_nat (length (displayed (ui_view bankSession)))
  ∧ exists d',
      run prefixSearch prefixAccepts (replicate 3 (SearchKeyPress Key_Down)) bankSession
      = inr (tt, d')
      ∧ currentIndex (ui_view d')
        = Index (Z.min (0 + Z.of_nat 3)
                   (Z.of_nat (length (displayed (ui_view bankSession))) - 1))
      ∧ displayed (ui_view d') = displayed (ui_view bankSession).
Proof.
  assert (menuBuilt bankSession) as Hbuilt by (unfold menuBuilt; simpl; lia).
  assert (0 <= 0 < Z.of_nat (length (displayed (ui_view bankSession)))) as Hr
    by (simpl; lia).
  split; [exact Hbuilt|]. split; [reflexivity|]. split; [reflexivity|].
  split; [exact Hr|].
  destruct (proj1 (repeated_keys_saturate prefixSearch prefixAccepts 3 bankSession 0
                     Hbuilt eq_refl eq_refl Hr))
    as (d' & Hrun & Hcur & Hshown & _).
  exists d'. split; [exact Hrun|]. split; [exact Hcur | exact Hshown].
Defined.

Lemma typing_is_debounced_witness :
  menuBuilt emptySession
  ∧ visible emptySession = true
  ∧ exists d1,
      run prefixSearch prefixAccepts (TextEdited <$> ["M"; "Ma"]) emptySession
      = inr (tt, d1)
      ∧ ui_view d1 = ui_view emptySession
      ∧ ui_search d1 = lastText ["M"; "Ma"] (ui_search emptySession).
Proof.
  assert (menuBuilt emptySession) as Hbuilt by (unfold menuBuilt; simpl; lia).
  split; [exact Hbuilt|]. split; [reflexivity|].
  destruct (typing_is_debounced prefixSearch prefixAccepts ["M"; "Ma"] emptySession
              Hbuilt eq_refl) as (d1 & Hrun & Hview & _ & Htext & _).
  exists d1. split; [exact Hrun|]. split; [exact Hview | exact Htext].
Defined.

Lemma escape_twice_cancels_witness :
  visible (set_search "abc" mailSession) = true
  ∧ exists d',
      run prefixSearch prefixAccepts
        [SearchKeyPress Key_Escape; SearchKeyPress Key_Escape]
        (set_search "abc" mailSession) = inr (tt, d')
      ∧ sessionState d' = Closed Rejected
      ∧ emitted d' = emitted (set_search "abc" mailSession) ++ [finished Rejected; rejected].
Proof.
  split; [reflexivity|].
  destruct (escape_twice_cancels prefixSearch prefixAccepts
              (set_search "abc" mailSession) eq_refl)
    as (d' & Hrun & Hstate & Hlog & _).
  exists d'. split; [exact Hrun|]. split; [exact Hstate | exact Hlog].
Defined.

Lemma eventFilter_consumes_witness :
  eventFilter obj_action (KeyPress Key_Down) mailSession
  = inr (true, set_menuShown true mailSession)
  ∧ true = consumed obj_action (KeyPress Key_Down)
  ∧ (true = false -> set_menuShown true mailSession = mailSession).
Proof.
  assert (eventFilter obj_action (KeyPress Key_Down) mailSession
          = inr (true, set_menuShown true mailSession)) as Hrun by reflexivity.
  split; [exact Hrun|].
  destruct (eventFilter_consumes _ _ _ _ _ Hrun) as (Hb & Hsame & _).
  split; [exact Hb | exact Hsame].
Defined.

Lemma session_log_witness :
  menuBuilt emptySession
  ∧ visible emptySession = true ∧ m_accepted emptySession = false
  ∧ emitted emptySession = []
  ∧ run prefixSearch prefixAccepts [TextEdited "Ma"; TimerTimeout] emptySession
    = inr (tt, searchedSession)
  ∧ visible searchedSession = true
  ∧ deliver prefixSearch prefixAccepts ReturnPressed searchedSession
    = inr (tt, acceptedSession)
  ∧ visible acceptedSession = false
  ∧ ((result acceptedSession = Accepted
      ∧ exists m, emitted acceptedSession = [finished Accepted; accepted; matchActivated m])
     ∨ (result acceptedSession = Rejected
        ∧ emitted acceptedSession = [finished Rejected; rejected])).
Proof.
  assert (menuBuilt emptySession) as Hbuilt by (unfold menuBuilt; simpl; lia).
  assert (run prefixSearch prefixAccepts [TextEdited "Ma"; TimerTimeout] emptySession
          = inr (tt, searchedSession)) as Hrun by (vm_compute; reflexivity).
  assert (deliver prefixSearch prefixAccepts ReturnPressed searchedSession
          = inr (tt, acceptedSession)) as Hdeliver by (vm_compute; reflexivity).
  split; [exact Hbuilt|]. split; [reflexivity|]. split; [reflexivity|].
  split; [reflexivity|]. split; [exact Hrun|]. split; [reflexivity|].
  split; [exact Hdeliver|]. split; [reflexivity|].
  exact (session_log prefixSearch prefixAccepts _ ReturnPressed _ _ _
           Hbuilt eq_refl eq_refl eq_refl Hrun eq_refl Hdeliver eq_refl).
Defined.

Lemma session_clipboard_witness :
  menuBuilt mailSession
  ∧ visible mailSession = true ∧ m_accepted mailSession = false
  ∧ clipboardTexts mailSession = []
  ∧ matchActivatedCount mailSession = 0%nat
  ∧ run prefixSearch prefixAccepts [] mailSession = inr (tt, mailSession)
  ∧ deliver prefixSearch prefixAccepts (MenuTriggered copyUsernameAction) mailSession
    = inr (tt, copiedSession)
  ∧ visible copiedSession = false
  ∧ clipboardTexts copiedSession = ["bob"]
  ∧ (clipboardTexts copiedSession = []
     ∨ exists a field e,
         MenuTriggered copyUsernameAction = MenuTriggered a
         ∧ copyField a = Some field
         ∧ (currentMatch (ui_view mailSession)).1 = Some e
         ∧ clipboardTexts copiedSession = [field e]
         ∧ result copiedSession = Rejected
         ∧ matchActivatedCount copiedSession = 0%nat).
Proof.
  assert (menuBuilt mailSession) as Hbuilt by (unfold menuBuilt; simpl; lia).
  assert (deliver prefixSearch prefixAccepts (MenuTriggered copyUsernameAction)
            mailSession = inr (tt, copiedSession)) as Hdeliver
    by (vm_compute; reflexivity).
  split; [exact Hbuilt|]. split; [reflexivity|]. split; [reflexivity|].
  split; [reflexivity|]. split; [reflexivity|]. split; [reflexivity|].
  split; [exact Hdeliver|]. split; [reflexivity|]. split; [reflexivity|].
  exact (proj2 (session_clipboard prefixSearch prefixAccepts []
                  (MenuTriggered copyUsernameAction) mailSession mailSession
                  copiedSession Hbuilt eq_refl eq_refl eq_refl eq_refl eq_refl
                  eq_refl Hdeliver eq_refl)).
Defined.
